(** * notifly-mcp-server: the streamable HTTP transport (src/http-server.ts)

    A shallow embedding of the HTTP layer of the server: the message
    classifier predicates, the per-session [StreamableHttpTransport], the
    session registry, the origin-checking middleware and the two [/mcp]
    endpoint handlers, followed by the properties of the specification
    that concern them.  The protocol handlers and the command-line entry
    point of src/mcp-setup.ts come after the HTTP layer.

    JavaScript objects that are shared between a handler and a transport
    (the Express response used as SSE sink, the promise behind a pending
    request handler) live in stores of the [World] and are referred to by
    identifier, so that aliasing is kept. *)

From Stdlib Require Import ZArith Ascii String.
From stdpp Require Import gmap strings list fin_maps pretty.

Open Scope string_scope.
Open Scope list_scope.

(** ** Outcomes of JavaScript code

    A piece of JavaScript either completes with a value, throws, or does
    not terminate.  [Diverge] is what a loop returns when its fuel is
    exhausted. *)

Inductive JsError :=
| TypeError (what : string).

Inductive Outcome (A : Type) :=
| Ok (a : A)
| Throw (e : JsError)
| Diverge.

Arguments Ok {A} a.
Arguments Throw {A} e.
Arguments Diverge {A}.

Definition bind {A B} (m : Outcome A) (k : A -> Outcome B) : Outcome B :=
  match m with
  | Ok a => k a
  | Throw e => Throw e
  | Diverge => Diverge
  end.

Notation "'do' x <- m ; k" := (bind m (fun x => k))
  (at level 10, x name, m at level 100, k at level 200).
Notation "'do' ' p <- m ; k" := (bind m (fun x => let 'p := x in k))
  (at level 10, p pattern, m at level 100, k at level 200).

(** ** JavaScript values

    The values [express.json()] can put in [req.body], plus [undefined].
    Numbers are kept as integers: the code under study only ever observes
    whether a number is zero (truthiness). An object is the list of its
    members in the order of the JSON text. *)

#[warnings="-register-all"]
Inductive jsval :=
| JUndefined
| JNull
| JBool (b : bool)
| JNum (n : Z)
| JStr (s : string)
| JArr (xs : list jsval)
| JObj (members : list (string * jsval)).

(** [JSON.parse] keeps the last of several members with one name. *)
Fixpoint own_prop (k : string) (members : list (string * jsval)) : option jsval :=
  match members with
  | [] => None
  | (k', v) :: rest =>
      match own_prop k rest with
      | Some v' => Some v'
      | None => if String.eqb k k' then Some v else None
      end
  end.

(** [v.k].  Reading a property of [undefined] or [null] throws.  On a
    string, number, boolean or array the lookup goes to the prototype;
    the model covers the names the server reads ([method], [id],
    [result], [error], [code]), none of which a prototype defines. *)
Definition get_prop (v : jsval) (k : string) : Outcome jsval :=
  match v with
  | JUndefined => Throw (TypeError "Cannot read properties of undefined")
  | JNull => Throw (TypeError "Cannot read properties of null")
  | JObj members => Ok (default JUndefined (own_prop k members))
  | JBool _ | JNum _ | JStr _ | JArr _ => Ok JUndefined
  end.

Definition typeof (v : jsval) : string :=
  match v with
  | JUndefined => "undefined"
  | JBool _ => "boolean"
  | JNum _ => "number"
  | JStr _ => "string"
  | JNull | JArr _ | JObj _ => "object"
  end.

(** ToBoolean. *)
Definition truthy (v : jsval) : bool :=
  match v with
  | JUndefined | JNull => false
  | JBool b => b
  | JNum n => negb (Z.eqb n 0)
  | JStr s => negb (String.eqb s EmptyString)
  | JArr _ | JObj _ => true
  end.

(** [v === "s"] for a string literal. *)
Definition strict_eq_string (v : jsval) (s : string) : bool :=
  match v with
  | JStr s' => String.eqb s' s
  | _ => false
  end.

(** [v === undefined]. *)
Definition is_undefined (v : jsval) : bool :=
  match v with
  | JUndefined => true
  | _ => false
  end.

(** [a && b] and [a || b]: the right operand is only evaluated (and can
    only throw) when the left one does not decide; the result is one of
    the operands, not a boolean. *)
Definition js_and (a b : Outcome jsval) : Outcome jsval :=
  do x <- a; if truthy x then b else Ok x.

Definition js_or (a b : Outcome jsval) : Outcome jsval :=
  do x <- a; if truthy x then Ok x else b.

Infix "&&&" := js_and (at level 40, left associativity).
Infix "|||" := js_or (at level 50, left associativity).

(** ** Message classifier (http-server.ts, lines 287-301) *)

Definition isInitializeRequest (msg : jsval) : Outcome jsval :=
  Ok msg &&&
  (do m <- get_prop msg "method"; Ok (JBool (strict_eq_string m "initialize"))).

Definition isRequest (msg : jsval) : Outcome jsval :=
  Ok msg &&&
  (do m <- get_prop msg "method"; Ok (JBool (String.eqb (typeof m) "string"))) &&&
  (do i <- get_prop msg "id"; Ok (JBool (negb (is_undefined i)))).

Definition isNotification (msg : jsval) : Outcome jsval :=
  Ok msg &&&
  (do m <- get_prop msg "method"; Ok (JBool (String.eqb (typeof m) "string"))) &&&
  (do i <- get_prop msg "id"; Ok (JBool (is_undefined i))).

Definition isResponse (msg : jsval) : Outcome jsval :=
  Ok msg &&&
  ((do r <- get_prop msg "result"; Ok (JBool (negb (is_undefined r)))) |||
   (do e <- get_prop msg "error"; Ok (JBool (negb (is_undefined e))))) &&&
  (do i <- get_prop msg "id"; Ok (JBool (negb (is_undefined i)))).

(** What an [if (...)] makes of the predicate's result. *)
Definition holds (r : Outcome jsval) : Outcome bool :=
  do v <- r; Ok (truthy v).

(** ** Express responses

    The state of one [res] object.  [headers] holds the headers the
    server sets itself; the ones Express adds on its own are left out. *)

Record HttpResponse := mkResponse {
  statusCode : Z;
  headers : list (string * string);
  headersSent : bool;
  chunks : list string;
  writableEnded : bool
}.

Definition new_response : HttpResponse :=
  mkResponse 200 [] false [] false.

Definition res_status (code : Z) (r : HttpResponse) : HttpResponse :=
  mkResponse code (headers r) (headersSent r) (chunks r) (writableEnded r).

Definition res_setHeader (k v : string) (r : HttpResponse) : HttpResponse :=
  mkResponse (statusCode r) (headers r ++ [(k, v)]) (headersSent r) (chunks r)
    (writableEnded r).

Definition res_writeHead (code : Z) (hs : list (string * string))
    (r : HttpResponse) : HttpResponse :=
  mkResponse code (headers r ++ hs) true (chunks r) (writableEnded r).

Definition res_write (chunk : string) (r : HttpResponse) : HttpResponse :=
  mkResponse (statusCode r) (headers r) true (chunks r ++ [chunk]) (writableEnded r).

Definition res_end (r : HttpResponse) : HttpResponse :=
  mkResponse (statusCode r) (headers r) true (chunks r) true.

Definition res_send (text : string) (r : HttpResponse) : HttpResponse :=
  res_end (res_write text r).

(** The line feed of the SSE framing. *)
Definition LF : string := String "010"%char EmptyString.

(** [`id: ${eventId}\nevent: message\ndata: ${data}\n\n`] *)
Definition sse_event (eventId data : string) : string :=
  "id: " +:+ eventId +:+ LF +:+ "event: message" +:+ LF +:+ "data: " +:+ data +:+ LF +:+ LF.

(** ** Shared objects

    Promises: the only promise of the program is the one a request-branch
    POST awaits.  It is created pending and its executor keeps [resolve]
    only: nothing below rejects a promise, and [await] on a rejected one
    throws. *)

Inductive PromiseState :=
| Pending
| Fulfilled (v : jsval)
| Rejected (e : jsval).

(** What the code under observation did, in order: a pending request
    handler installed on a session's transport, a message handed to the
    engine's [onmessage] callback, a pending request handler called. *)
Inductive Obs :=
| OInstall (sid : string) (p : nat)
| ODeliver (sid : string) (msg : jsval)
| OResolve (p : nat) (msg : jsval).

(** The objects several parties hold a reference to, by identifier, the
    number of identifiers [uuidv4] has produced so far, and the log. *)
Record Heap := mkHeap {
  responses : gmap nat HttpResponse;
  promises : gmap nat PromiseState;
  uuid_count : nat;
  trace : list Obs
}.

(** A response object that was never touched is a fresh one. *)
Definition get_response (r : nat) (h : Heap) : HttpResponse :=
  default new_response (responses h !! r).

Definition update_response (r : nat) (f : HttpResponse -> HttpResponse)
    (h : Heap) : Heap :=
  mkHeap (<[r := f (get_response r h)]> (responses h)) (promises h)
    (uuid_count h) (trace h).

Definition new_promise (p : nat) (h : Heap) : Heap :=
  mkHeap (responses h) (<[p := Pending]> (promises h)) (uuid_count h) (trace h).

(** Calling the [resolve] function of promise [p]: the first call settles
    the promise, later calls do nothing. *)
Definition settle (v : jsval) (st : PromiseState) : PromiseState :=
  match st with
  | Pending => Fulfilled v
  | Fulfilled v0 => Fulfilled v0
  | Rejected e => Rejected e
  end.

Definition resolve (p : nat) (v : jsval) (h : Heap) : Heap :=
  mkHeap (responses h) (alter (settle v) p (promises h)) (uuid_count h)
    (trace h ++ [OResolve p v]).

Definition forget_promise (p : nat) (h : Heap) : Heap :=
  mkHeap (responses h) (delete p (promises h)) (uuid_count h) (trace h).

Definition log (o : Obs) (h : Heap) : Heap :=
  mkHeap (responses h) (promises h) (uuid_count h) (trace h ++ [o]).

(** ** The session transport (class StreamableHttpTransport)

    [_currentResponse] refers to a response of the heap and
    [_pendingRequestHandler] to the promise whose [resolve] function was
    installed; [_onmessage] and [_onclose] record whether the engine has
    registered its callbacks. *)

Record Transport := mkTransport {
  _onmessage : bool;
  _onclose : bool;
  _currentResponse : option nat;
  _messageQueue : list jsval;
  _sessionId : string;
  _pendingRequestHandler : option nat
}.

(** [new StreamableHttpTransport(sessionId)] *)
Definition new_transport (sessionId : string) : Transport :=
  mkTransport false false None [] sessionId None.

Definition set_currentResponse (r : option nat) (t : Transport) : Transport :=
  mkTransport (_onmessage t) (_onclose t) r (_messageQueue t) (_sessionId t)
    (_pendingRequestHandler t).

Definition set_messageQueue (q : list jsval) (t : Transport) : Transport :=
  mkTransport (_onmessage t) (_onclose t) (_currentResponse t) q (_sessionId t)
    (_pendingRequestHandler t).

Definition set_pendingSlot (p : option nat) (t : Transport) : Transport :=
  mkTransport (_onmessage t) (_onclose t) (_currentResponse t) (_messageQueue t)
    (_sessionId t) p.

(** The setters [onmessage] and [onclose], as the engine's [connect]
    calls them. *)
Definition set_callbacks (t : Transport) : Transport :=
  mkTransport true true (_currentResponse t) (_messageQueue t) (_sessionId t)
    (_pendingRequestHandler t).

(** [this._currentResponse && !this._currentResponse.writableEnded] *)
Definition sink_open (t : Transport) (h : Heap) : bool :=
  match _currentResponse t with
  | Some r => negb (writableEnded (get_response r h))
  | None => false
  end.

Section Server.

(** Platform functions the server calls: [JSON.stringify] and the
    successive results of [uuidv4()]. *)
Variable JSON_stringify : jsval -> string.
Variable uuidv4 : nat -> string.

(** The protocol engine ([createMcpServer] of mcp-setup.ts and the SDK's
    [Server]) is an external collaborator: a state, and what its
    [onmessage] callback does when the transport hands it a message, that
    is its next state and the messages it passes to [transport.send]
    before it returns.  What it sends later arrives as separate events. *)
Variable Engine : Type.
Variable createMcpServer : Engine.
Variable engine_onmessage : Engine -> jsval -> Engine * list jsval.

Definition draw_uuid (h : Heap) : string * Heap :=
  (uuidv4 (uuid_count h),
   mkHeap (responses h) (promises h) (S (uuid_count h)) (trace h)).

(** [async send(message)]: the body has no [await], so a call runs to its
    end at once. *)
Definition send (t : Transport) (message : jsval) (h : Heap) : Transport * Heap :=
  match _pendingRequestHandler t with
  | Some p => (set_pendingSlot None t, resolve p message h)
  | None =>
      if sink_open t h then
        match _currentResponse t with
        | Some r =>
            let (eventId, h1) := draw_uuid h in
            (t, update_response r
                  (res_write (sse_event eventId (JSON_stringify message))) h1)
        | None => (t, h)
        end
      else (set_messageQueue (_messageQueue t ++ [message]) t, h)
  end.

(** [setPendingRequestHandler(handler)], for the [resolve] of promise [p]. *)
Definition setPendingRequestHandler (p : nat) (t : Transport) (h : Heap)
    : Transport * Heap :=
  (set_pendingSlot (Some p) t, log (OInstall (_sessionId t) p) h).

(** The loop of [attachResponse]: [shift()] the head of the queue and
    [send] it when it is truthy. One unit of fuel per iteration. *)
Fixpoint flush (fuel : nat) (t : Transport) (h : Heap) : Outcome (Transport * Heap) :=
  match _messageQueue t with
  | [] => Ok (t, h)
  | msg :: rest =>
      match fuel with
      | O => Diverge
      | S fuel' =>
          let t1 := set_messageQueue rest t in
          let (t2, h2) := if truthy msg then send t1 msg h else (t1, h) in
          flush fuel' t2 h2
      end
  end.

Definition attachResponse (fuel : nat) (res : nat) (t : Transport) (h : Heap)
    : Outcome (Transport * Heap) :=
  flush fuel (set_currentResponse (Some res) t) h.

(** ** Sessions and the registry *)

Record Session := mkSession {
  server : Engine;
  transport : Transport
}.

(** The process: the [sessions] map, the shared objects, the number of
    HTTP requests received so far (request [n] answers on response [n])
    and the [ALLOWED_ORIGINS] variable of the environment. *)
Record World := mkWorld {
  sessions : gmap string Session;
  heap : Heap;
  next_req : nat;
  ALLOWED_ORIGINS : option string
}.

Definition with_heap (h : Heap) (w : World) : World :=
  mkWorld (sessions w) h (next_req w) (ALLOWED_ORIGINS w).

Definition with_session (sid : string) (s : Session) (h : Heap) (w : World) : World :=
  mkWorld (<[sid := s]> (sessions w)) h (next_req w) (ALLOWED_ORIGINS w).

(** A handler acting on its own response object. *)
Definition reply (rid : nat) (f : HttpResponse -> HttpResponse) (w : World) : World :=
  with_heap (update_response rid f (heap w)) w.

(** [res.json(v)], on the default status 200. *)
Definition res_json (v : jsval) (r : HttpResponse) : HttpResponse :=
  res_send (JSON_stringify v) r.

(** [await server.connect(transport)]: the engine registers its
    callbacks on the transport and calls the no-op [start]. *)
Definition connect (e : Engine) (t : Transport) : Session :=
  mkSession e (set_callbacks t).

Definition send_all (outs : list jsval) (t : Transport) (h : Heap) : Transport * Heap :=
  fold_left (fun th m => send (fst th) m (snd th)) outs (t, h).

(** [handleMessage(message)]: the engine's callback runs, if it is
    registered, and may call [send] before it returns. *)
Definition handleMessage (s : Session) (message : jsval) (h : Heap) : Session * Heap :=
  if _onmessage (transport s) then
    let (e', outs) := engine_onmessage (server s) message in
    let (t', h') :=
      send_all outs (transport s)
        (log (ODeliver (_sessionId (transport s)) message) h) in
    (mkSession e' t', h')
  else (s, h).

(** A header read as [req.headers[...] as string] and tested with [!]:
    an absent header and an empty one are both falsy. *)
Definition header_value (hd : option string) : option string :=
  match hd with
  | Some s => if String.eqb s EmptyString then None else Some s
  | None => None
  end.

Definition sse_headers : list (string * string) :=
  [("Content-Type", "text/event-stream"); ("Cache-Control", "no-cache");
   ("Connection", "keep-alive")].

(** ** GET /mcp (lines 171-201) *)

Definition get_mcp (fuel rid : nat) (sessionId : option string) (w : World)
    : Outcome World :=
  match header_value sessionId with
  | None => Ok (reply rid (fun r => res_send "Missing MCP-Session-Id header" (res_status 400 r)) w)
  | Some sid =>
      match sessions w !! sid with
      | None => Ok (reply rid (fun r => res_send "Session not found" (res_status 404 r)) w)
      | Some session =>
          let h1 := update_response rid (res_writeHead 200 sse_headers) (heap w) in
          let (eventId, h2) := draw_uuid h1 in
          let h3 := update_response rid (res_write (sse_event eventId EmptyString)) h2 in
          do ' (t', h4) <- attachResponse fuel rid (transport session) h3;
          Ok (with_session sid (mkSession (server session) t') h4 w)
      end
  end.

(** ** POST /mcp (lines 203-285)

    The handler up to the point where it returns or suspends.  In the
    request branch it suspends on the promise it has just created, which
    is numbered like the request.  The [await] on [connect] in the
    initialization branch is run through: until [sessions.set] nothing
    else can reach the new transport. *)

(** Lines 225-233: the four [setHeader] calls and the priming event. *)
Definition open_stream (rid : nat) (newSessionId : string) (h : Heap) : Heap :=
  let h1 :=
    update_response rid
      (fun r => fold_left (fun r kv => res_setHeader (fst kv) (snd kv) r)
                  (("MCP-Session-Id", newSessionId) :: sse_headers) r) h in
  let (eventId, h2) := draw_uuid h1 in
  update_response rid (res_write (sse_event eventId EmptyString)) h2.

(** Lines 217-237: a new session is created, registered and its SSE
    stream opened on the response of this very request. *)
Definition post_initialize (fuel rid : nat) (body : jsval) (w : World)
    : Outcome World :=
  let (newSessionId, h1) := draw_uuid (heap w) in
  let s0 := connect createMcpServer (new_transport newSessionId) in
  let h4 := open_stream rid newSessionId h1 in
  do ' (t1, h5) <- attachResponse fuel rid (transport s0) h4;
  let (s2, h6) := handleMessage (mkSession (server s0) t1) body h5 in
  Ok (with_session newSessionId s2 h6 w).

(** Lines 252-254: deliver and answer 202. *)
Definition post_accepted (rid : nat) (sid : string) (session : Session)
    (body : jsval) (w : World) : World :=
  let (s', h') := handleMessage session body (heap w) in
  with_session sid s' (update_response rid (fun r => res_end (res_status 202 r)) h') w.

(** Lines 261-265: create the promise, install its [resolve] as pending
    request handler, deliver; the handler then waits on the promise. *)
Definition post_request (rid : nat) (sid : string) (session : Session)
    (body : jsval) (w : World) : World :=
  let h1 := new_promise rid (heap w) in
  let (t1, h2) := setPendingRequestHandler rid (transport session) h1 in
  let (s', h3) := handleMessage (mkSession (server session) t1) body h2 in
  with_session sid s' h3 w.

Definition post_mcp (fuel rid : nat) (sessionId : option string) (body : jsval)
    (w : World) : Outcome World :=
  match header_value sessionId with
  | None =>
      do init <- holds (isInitializeRequest body);
      if init : bool then post_initialize fuel rid body w
      else
        Ok (reply rid (fun r => res_send "Missing MCP-Session-Id header" (res_status 400 r)) w)
  | Some sid =>
      match sessions w !! sid with
      | None => Ok (reply rid (fun r => res_send "Session not found" (res_status 404 r)) w)
      | Some session =>
          do nr <- holds (isNotification body ||| isResponse body);
          if nr : bool then Ok (post_accepted rid sid session body w)
          else
            do rq <- holds (isRequest body);
            if rq : bool then Ok (post_request rid sid session body w)
            else
              Ok (reply rid (fun r => res_send "Invalid JSON-RPC message" (res_status 400 r)) w)
      end
  end.

(** How an [await] ends. *)
Inductive Settlement :=
| Returned (v : jsval)
| Thrown (e : jsval).

(** The rest of the request branch, once [await responsePromise] is over
    (lines 272-281): [res.json(response)], or the [catch] block. *)
Definition post_mcp_resume (rid : nat) (o : Settlement) (w : World) : World :=
  match o with
  | Returned response => reply rid (res_json response) w
  | Thrown _ => reply rid (fun r => res_send "Internal Server Error" (res_status 500 r)) w
  end.

(** ** A callback that throws (lines 135-139 and 258-265)

    [engine_onmessage] is a callback that returns.  The source does not
    ask for that: [this._onmessage(message)] is a plain call, none of
    the three calls of [handleMessage] stands inside a [try], and an
    exception the callback throws leaves [handleMessage] and the route
    handler with it.  [engine_onmessage_throwing] is a callback together
    with how it ends: its next state, the messages it has passed to
    [transport.send] by then, and whether it returned or threw. *)

Inductive Completion :=
| Returns
| Throws (e : jsval).

Variable engine_onmessage_throwing : Engine -> jsval -> Engine * list jsval * Completion.

Definition handleMessage_throwing (s : Session) (message : jsval) (h : Heap)
    : Session * Heap * Completion :=
  if _onmessage (transport s) then
    let '(e', outs, c) := engine_onmessage_throwing (server s) message in
    let (t', h') :=
      send_all outs (transport s)
        (log (ODeliver (_sessionId (transport s)) message) h) in
    (mkSession e' t', h', c)
  else (s, h, Returns).

(** Lines 261-265 with such a callback.  When it returns, the handler
    goes on to wait on its promise, as in [post_request].  When it
    throws, the exception leaves the handler at line 265, before the
    [try] of line 267: the handler is over, and nothing waits on the
    promise any more. *)
Definition post_request_throwing (rid : nat) (sid : string) (session : Session)
    (body : jsval) (w : World) : World * Completion :=
  let h1 := new_promise rid (heap w) in
  let (t1, h2) := setPendingRequestHandler rid (transport session) h1 in
  let '(s', h3, c) := handleMessage_throwing (mkSession (server session) t1) body h2 in
  match c with
  | Returns => (with_session sid s' h3 w, Returns)
  | Throws e => (with_session sid s' (forget_promise rid h3) w, Throws e)
  end.

(** ** The middleware (lines 13-69) *)

(** [s.split(',')] *)
Fixpoint split_comma (s : string) : list string :=
  match s with
  | EmptyString => [EmptyString]
  | String c rest =>
      if Ascii.eqb c ","%char then EmptyString :: split_comma rest
      else match split_comma rest with
           | piece :: pieces => String c piece :: pieces
           | [] => [String c EmptyString]
           end
  end.

(** [process.env.ALLOWED_ORIGINS ? process.env.ALLOWED_ORIGINS.split(',') : []] *)
Definition allowedOrigins (env : option string) : list string :=
  match env with
  | Some s => if String.eqb s EmptyString then [] else split_comma s
  | None => []
  end.

Definition includes (l : list string) (x : string) : bool :=
  existsb (String.eqb x) l.

Definition forbidden_body : jsval :=
  JObj [("jsonrpc", JStr "2.0");
        ("error", JObj [("code", JNum (-32000));
                        ("message", JStr "Forbidden: Invalid Origin")]);
        ("id", JNull)].

(** The security middleware: the response it leaves and whether it
    called [next()]. *)
Definition security_middleware (env : option string) (origin : option string)
    (r : HttpResponse) : HttpResponse * bool :=
  match header_value origin with
  | Some o =>
      if (0 <? length (allowedOrigins env))%nat && negb (includes (allowedOrigins env) o)
      then (res_json forbidden_body (res_status 403 r), false)
      else (r, true)
  | None => (r, true)
  end.

(** The [origin] callback given to [cors]: [true] for [callback(null,
    true)], [false] for the error. *)
Definition cors_origin (env : option string) (origin : option string) : bool :=
  match header_value origin with
  | None => true
  | Some o =>
      (length (allowedOrigins env) =? 0)%nat || includes (allowedOrigins env) o
  end.

Inductive Verb := GET | POST.

Record HttpRequest := mkRequest {
  verb : Verb;
  origin : option string;
  mcp_session_id : option string;
  body : jsval
}.

(** A request arrives: Express makes its response object. *)
Definition arrive (w : World) : World :=
  mkWorld (sessions w) (update_response (next_req w) (fun _ => new_response) (heap w))
    (S (next_req w)) (ALLOWED_ORIGINS w).

(** One request to [/mcp] through the middleware chain. An error from
    [cors] ends in Express's error handler, which answers 500. *)
Definition serve (fuel : nat) (req : HttpRequest) (w : World) : Outcome World :=
  let rid := next_req w in
  let w0 := arrive w in
  let (r1, next1) := security_middleware (ALLOWED_ORIGINS w) (origin req) new_response in
  if negb next1 then Ok (reply rid (fun _ => r1) w0)
  else if negb (cors_origin (ALLOWED_ORIGINS w) (origin req))
  then Ok (reply rid (fun r => res_end (res_status 500 r)) w0)
  else match verb req with
       | GET => get_mcp fuel rid (mcp_session_id req) w0
       | POST => post_mcp fuel rid (mcp_session_id req) (body req) w0
       end.

(** ** The event loop

    What can happen to the process: an HTTP request arrives, the engine
    of a session calls [transport.send] on its own, or the suspended
    handler of request [rid] is resumed. *)

Inductive Event :=
| Http (req : HttpRequest)
| EngineSend (sid : string) (msg : jsval)
| Resume (rid : nat).

Definition engine_send (sid : string) (msg : jsval) (w : World) : World :=
  match sessions w !! sid with
  | Some s =>
      let (t', h') := send (transport s) msg (heap w) in
      with_session sid (mkSession (server s) t') h' w
  | None => w
  end.

(** A handler suspended on promise [rid] goes on once the promise is
    settled: [await] returns the value of a fulfilled promise and throws
    the reason of a rejected one. *)
Definition resume (rid : nat) (w : World) : World :=
  match promises (heap w) !! rid with
  | Some (Fulfilled v) =>
      post_mcp_resume rid (Returned v) (with_heap (forget_promise rid (heap w)) w)
  | Some (Rejected e) =>
      post_mcp_resume rid (Thrown e) (with_heap (forget_promise rid (heap w)) w)
  | Some Pending | None => w
  end.

Definition step (fuel : nat) (w : World) (ev : Event) : Outcome World :=
  match ev with
  | Http req => serve fuel req w
  | EngineSend sid msg => Ok (engine_send sid msg w)
  | Resume rid => Ok (resume rid w)
  end.

Fixpoint run (fuel : nat) (w : World) (evs : list Event) : Outcome World :=
  match evs with
  | [] => Ok w
  | ev :: rest => do w' <- step fuel w ev; run fuel w' rest
  end.

Definition empty_heap : Heap := mkHeap ∅ ∅ 0 [].

(** The process at start-up. *)
Definition boot (env : option string) : World := mkWorld ∅ empty_heap 0 env.

(** The states the process can be in. *)
Definition reachable (w : World) : Prop :=
  exists env fuel evs, run fuel (boot env) evs = Ok w.

(** What holds of every registered session: the engine is connected to
    its transport, and its sink, if any, is the response of an earlier
    request. *)
Definition wired (n : nat) (s : Session) : Prop :=
  _onmessage (transport s) = true /\
  forall r, _currentResponse (transport s) = Some r -> r < n.

Definition wired_all (n : nat) (w : World) : Prop :=
  forall sid s, sessions w !! sid = Some s -> wired n s.

Definition wf (w : World) : Prop := wired_all (next_req w) w.

(** One SSE frame for [msg], under the [n]-th identifier. *)
Definition frame (n : nat) (msg : jsval) : string :=
  sse_event (uuidv4 n) (JSON_stringify msg).

(** Writing one frame per message on response [r], in order. *)
Definition write_frames (r : nat) (msgs : list jsval) (h : Heap) : Heap :=
  fold_left
    (fun h m => update_response r (res_write (frame (uuid_count h) m)) (snd (draw_uuid h)))
    msgs h.

End Server.

Arguments mkSession {Engine} server transport.
Arguments server {Engine} s.
Arguments transport {Engine} s.
Arguments mkWorld {Engine} sessions heap next_req ALLOWED_ORIGINS.
Arguments sessions {Engine} w.
Arguments heap {Engine} w.
Arguments next_req {Engine} w.
Arguments ALLOWED_ORIGINS {Engine} w.
Arguments with_heap {Engine} h w.
Arguments with_session {Engine} sid s h w.
Arguments reply {Engine} rid f w.
Arguments boot {Engine} env.
Arguments arrive {Engine} w.
Arguments wired {Engine} n s.
Arguments wired_all {Engine} n w.
Arguments wf {Engine} w.

(** How POST /mcp classifies a body sent on a known session: the branch
    its tests select, in their order (lines 251-284). *)
Inductive Route :=
| RAccepted
| RRequest
| RInvalid.

Definition route (body : jsval) : Outcome Route :=
  do nr <- holds (isNotification body ||| isResponse body);
  if nr : bool then Ok RAccepted
  else do rq <- holds (isRequest body);
       if rq : bool then Ok RRequest else Ok RInvalid.

(** [msg.k] of an object, [undefined] when there is no such member. *)
Definition member (k : string) (members : list (string * jsval)) : jsval :=
  default JUndefined (own_prop k members).

Definition is_string (v : jsval) : bool := String.eqb (typeof v) "string".
Definition defined (v : jsval) : bool := negb (is_undefined v).

(** ** Vocabulary of the statements *)

(** What a [send] cannot change: the transport keeps its sink, its
    identifier and its callbacks, and a response keeps its status, its
    headers and its end flag, and only ever gains chunks. *)
Definition extends (r1 r2 : HttpResponse) : Prop :=
  statusCode r2 = statusCode r1 /\ headers r2 = headers r1 /\
  writableEnded r2 = writableEnded r1 /\
  exists more, chunks r2 = chunks r1 ++ more.

Definition same_wiring (t t' : Transport) : Prop :=
  _currentResponse t' = _currentResponse t /\ _sessionId t' = _sessionId t /\
  _onmessage t' = _onmessage t /\ _onclose t' = _onclose t.

(** The response of an initializing POST before the engine sees the
    message: the session header, the SSE headers, the priming event. *)
Definition bootstrapped (sessionId eventId : string) (r : HttpResponse) : HttpResponse :=
  res_write (sse_event eventId EmptyString)
    (res_setHeader "Connection" "keep-alive"
       (res_setHeader "Cache-Control" "no-cache"
          (res_setHeader "Content-Type" "text/event-stream"
             (res_setHeader "MCP-Session-Id" sessionId r)))).

(** No promise of the heap is rejected. *)
Definition never_rejected (h : Heap) : Prop :=
  forall p e, promises h !! p <> Some (Rejected e).

(** Pending request handlers installed along a log. *)
Definition is_install (o : Obs) : bool :=
  match o with
  | OInstall _ _ => true
  | _ => false
  end.

Fixpoint installs (tr : list Obs) : nat :=
  match tr with
  | [] => 0
  | o :: rest => (if is_install o then 1 else 0) + installs rest
  end.

(** Messages handed to an engine along a log. *)
Definition is_deliver (o : Obs) : bool :=
  match o with
  | ODeliver _ _ => true
  | _ => false
  end.

Fixpoint deliveries (tr : list Obs) : nat :=
  match tr with
  | [] => 0
  | o :: rest => (if is_deliver o then 1 else 0) + deliveries rest
  end.

(** A string without comma. *)
Fixpoint comma_free (s : string) : bool :=
  match s with
  | EmptyString => true
  | String c rest => negb (Ascii.eqb c ","%char) && comma_free rest
  end.

(** A registered session in good order: it is filed under the
    identifier its transport carries, its engine is connected, its
    queue is empty, and its sink is the response of an earlier request
    which has not ended and on which no handler waits. *)
Definition tidy {Engine} (n : nat) (h : Heap) (sid : string) (s : Session Engine) : Prop :=
  _sessionId (transport s) = sid /\
  _onmessage (transport s) = true /\
  _messageQueue (transport s) = [] /\
  exists r, _currentResponse (transport s) = Some r /\ r < n /\
    writableEnded (get_response r h) = false /\
    promises h !! r = None.

(** The process in good order: every session is, and every promise
    belongs to an earlier request whose response has not ended. *)
Definition sound {Engine} (w : World Engine) : Prop :=
  (forall sid s, sessions w !! sid = Some s -> tidy (next_req w) (heap w) sid s) /\
  (forall p, is_Some (promises (heap w) !! p) ->
     p < next_req w /\ writableEnded (get_response p (heap w)) = false).

(** What an event leaves alone among the responses and promises of
    the requests before the [n]-th: which of them have ended, and for
    which of them a promise exists. *)
Definition undisturbed (n : nat) (h h' : Heap) : Prop :=
  forall r, r < n ->
    writableEnded (get_response r h') = writableEnded (get_response r h) /\
    (promises h' !! r = None <-> promises h !! r = None).

(** The state in which the handler of request [rid] finds the process:
    in good order as far as the earlier requests go, with a response of
    its own that is new. *)
Definition ready {Engine} (rid : nat) (w : World Engine) : Prop :=
  (forall sid s, sessions w !! sid = Some s -> tidy rid (heap w) sid s) /\
  (forall p, is_Some (promises (heap w) !! p) ->
     p < rid /\ writableEnded (get_response p (heap w)) = false) /\
  get_response rid (heap w) = new_response /\
  next_req w = S rid.

(** A request whose handler waits on a promise that no transport can
    resolve any more. *)
Definition orphaned {Engine} (rid : nat) (w : World Engine) : Prop :=
  promises (heap w) !! rid = Some Pending /\
  forall sid s, sessions w !! sid = Some s ->
    _pendingRequestHandler (transport s) <> Some rid.

(** ** The protocol handlers of [createMcpServer] (mcp-setup.ts, lines 10-96)

    The two request handlers registered on the SDK server. What the
    file imports and this repository does not show is taken as given:
    the tool table [MCP_TOOLS], of which only the own entries and the
    names it resolves through its prototype matter; zod's
    [z.object(schema).safeParse]; [zodToJsonSchema]; [formatErrorForUser];
    [JSON.stringify(_, null, 2)].  A tool's handler is a function of the
    validated arguments and the server context, which it may change,
    and it either returns a value or throws. *)
Module Tools.

(** What can be thrown inside the call handler: the two error classes
    of errors.ts it constructs itself, and anything else. *)
Inductive Thrown :=
| ConfigurationError (message : string)
| ValidationError (message : string)
| Foreign (e : jsval).

(** One zod issue, its path already rendered item by item. *)
Record Issue := mkIssue {
  path : list string;
  message : string
}.

Inductive SafeParse :=
| ParseSuccess (data : jsval)
| ParseFailure (errors : list Issue).

(** The value a handler returns: [{content: [{type: "text", text}]}],
    with [isError: true] set or absent. *)
Record CallToolResult := mkResult {
  text : jsval;
  isError : bool
}.

Section Handlers.

Variable Schema : Type.
Variable JsonSchema : Type.
Variable ServerContext : Type.

Record Tool := mkTool {
  description : option string;
  inputSchema : Schema;
  handler : jsval -> ServerContext -> ServerContext * (jsval + Thrown)
}.

Variable MCP_TOOLS : list (string * Tool).
(** The names [MCP_TOOLS[name]] finds on the prototype chain, and what
    is thrown inside the [try] when such a name is called: the value
    found there has neither schema nor handler. *)
Variable inherited : string -> bool.
Variable inherited_failure : string -> jsval -> Thrown.
Variable safeParse : Schema -> jsval -> SafeParse.
Variable zodToJsonSchema : Schema -> JsonSchema.
Variable formatErrorForUser : Thrown -> string.
Variable JSON_stringify_indented : jsval -> jsval.

(** [MCP_TOOLS[name]]: an own entry (the last one of that name), else a
    member of the prototype, else [undefined]. *)
Inductive Looked :=
| Own (tool : Tool)
| Inherited
| Missing.

Fixpoint own_tool (name : string) (table : list (string * Tool)) : option Tool :=
  match table with
  | [] => None
  | (k, tool) :: rest =>
      match own_tool name rest with
      | Some later => Some later
      | None => if String.eqb name k then Some tool else None
      end
  end.

Definition lookup_tool (name : string) : Looked :=
  match own_tool name MCP_TOOLS with
  | Some tool => Own tool
  | None => if inherited name then Inherited else Missing
  end.

Record ToolDescriptor := mkDescriptor {
  d_name : string;
  d_description : string;
  d_inputSchema : JsonSchema
}.

(** The [tools/list] handler (lines 28-45). *)
Definition list_tools : list ToolDescriptor :=
  map (fun entry =>
         mkDescriptor (fst entry)
           (match description (snd entry) with
            | Some d => if String.eqb d EmptyString then "Tool: " +:+ fst entry else d
            | None => "Tool: " +:+ fst entry
            end)
           (zodToJsonSchema (inputSchema (snd entry))))
      MCP_TOOLS.

(** [`${err.path.join(".")}: ${err.message}`], joined with [", "]. *)
Definition error_details (errors : list Issue) : string :=
  String.concat ", "
    (map (fun err => String.concat "." (path err) +:+ ": " +:+ message err) errors).

Definition failed (e : Thrown) : CallToolResult :=
  mkResult (JStr (formatErrorForUser e)) true.

(** The [tools/call] handler (lines 48-93), on [request.params.name] and
    [request.params.arguments]: the new context, and the result or what
    is thrown out of the handler. *)
Definition call_tool (name : string) (rawArgs : jsval) (context : ServerContext)
    : ServerContext * (CallToolResult + Thrown) :=
  match lookup_tool name with
  | Missing =>
      (context,
       inr (ConfigurationError
              ("Tool not found: " +:+ name +:+ ". Available tools: " +:+
               String.concat ", " (map fst MCP_TOOLS))))
  | Inherited =>
      (context,
       inl (failed (inherited_failure name (if truthy rawArgs then rawArgs else JObj []))))
  | Own tool =>
      match safeParse (inputSchema tool) (if truthy rawArgs then rawArgs else JObj []) with
      | ParseFailure errors =>
          (context,
           inl (failed (ValidationError ("Invalid arguments: " +:+ error_details errors))))
      | ParseSuccess data =>
          match handler tool data context with
          | (context', inl result) =>
              (context',
               inl (mkResult
                      (if String.eqb (typeof result) "string" then result
                       else JSON_stringify_indented result)
                      false))
          | (context', inr error) => (context', inl (failed error))
          end
      end
  end.

End Handlers.

End Tools.

(** ** The entry point (second part of mcp-setup.ts, lines 112-230) *)
Module Cli.

(** The parsed options; an absent field is [false]. *)
Record Args := mkArgs {
  help : bool;
  version : bool
}.

(** One turn of the loop of [parseArgs]. *)
Definition parse_arg (parsed : Args) (arg : string) : Args :=
  if String.eqb arg "--help" || String.eqb arg "-h" then mkArgs true (version parsed)
  else if String.eqb arg "--version" || String.eqb arg "-v" then mkArgs (help parsed) true
  else parsed.

(** [parseArgs()], on [process.argv]. *)
Definition parseArgs (argv : list string) : Args :=
  fold_left parse_arg (drop 2 argv) (mkArgs false false).

(** What a command line asks for: a flag is looked for among the
    arguments proper, [--http] in the whole of [process.argv]. *)
Definition wants_help (argv : list string) : Prop :=
  exists arg, arg ∈ drop 2 argv /\ (arg = "--help" \/ arg = "-h").

Definition wants_version (argv : list string) : Prop :=
  exists arg, arg ∈ drop 2 argv /\ (arg = "--version" \/ arg = "-v").

Definition wants_http (argv : list string) (NOTIFLY_USE_HTTP : option string) : Prop :=
  "--http" ∈ argv \/ NOTIFLY_USE_HTTP = Some "true".

(** How [main] ends: [process.exit(code)], or the server connected to
    the stdio transport (the connection is taken to succeed). *)
Inductive Ending :=
| Exit (code : Z)
| Serving.

(** What [main] wrote with [console.error], call by call, and how it
    ended. Nothing is written to the standard output. *)
Record Run := mkRun {
  stderr : list string;
  ending : Ending
}.

Section Main.

Variable MCP_SERVER_NAME : string.
Variable MCP_SERVER_VERSION : string.

Definition dq : string := String (ascii_of_nat 34) EmptyString.

(** The text [displayHelp] prints. *)
Definition help_text : string :=
  String.concat LF
    [EmptyString;
     MCP_SERVER_NAME +:+ " v" +:+ MCP_SERVER_VERSION;
     EmptyString;
     "Usage:";
     "  notifly-mcp-server [options]";
     "  npx notifly-mcp-server [options]";
     EmptyString;
     "Options:";
     "  --version, -v            Show version number";
     "  --help, -h               Show this help message";
     EmptyString;
     "Note: HTTP transport has been archived. Only stdio transport is available.";
     EmptyString;
     "Examples:";
     "  notifly-mcp-server";
     EmptyString;
     "MCP Client Configuration:";
     "  Add this to your MCP client configuration file:";
     EmptyString;
     "  {";
     "    " +:+ dq +:+ "mcpServers" +:+ dq +:+ ": {";
     "      " +:+ dq +:+ "notifly" +:+ dq +:+ ": {";
     "        " +:+ dq +:+ "command" +:+ dq +:+ ": " +:+ dq +:+ "npx" +:+ dq +:+ ",";
     "        " +:+ dq +:+ "args" +:+ dq +:+ ": [" +:+ dq +:+ "-y" +:+ dq +:+ ", "
       +:+ dq +:+ "notifly-mcp-server@latest" +:+ dq +:+ "]";
     "      }";
     "    }";
     "  }";
     EmptyString;
     "Documentation:";
     "  https://docs.notifly.tech/mcp-server";
     "  https://github.com/notifly-tech/notifly-mcp-server";
     EmptyString].

(** [main()], given [process.argv] and [process.env.NOTIFLY_USE_HTTP]. *)
Definition main (argv : list string) (NOTIFLY_USE_HTTP : option string) : Run :=
  let args := parseArgs argv in
  if version args then mkRun [MCP_SERVER_VERSION] (Exit 0)
  else if help args then mkRun [help_text] (Exit 0)
  else if includes argv "--http"
          || match NOTIFLY_USE_HTTP with
             | Some v => String.eqb v "true"
             | None => false
             end
  then mkRun
         ["[Error] HTTP transport has been archived and is not available in this build.";
          "Please use stdio transport (default) or check docs/archive/ for HTTP implementation."]
         (Exit 1)
  else mkRun [MCP_SERVER_NAME +:+ " v" +:+ MCP_SERVER_VERSION +:+ " connected (stdio)"]
         Serving.

End Main.

End Cli.

(** ** A concrete platform and engine, to run the server on

    A JSON printer for the values above, identifiers numbered in the
    order of the draws, and an engine that records what it receives and
    answers [ping] requests before returning from [onmessage]. *)
Module Demo.

Definition quote : string := String (ascii_of_nat 34) EmptyString.
Definition backslash : string := String (ascii_of_nat 92) EmptyString.

Fixpoint escape (s : string) : string :=
  match s with
  | EmptyString => EmptyString
  | String c rest =>
      if Ascii.eqb c (ascii_of_nat 34) || Ascii.eqb c (ascii_of_nat 92)
      then backslash +:+ String c (escape rest)
      else String c (escape rest)
  end.

Definition quoted (s : string) : string := quote +:+ escape s +:+ quote.

Fixpoint stringify (v : jsval) : string :=
  match v with
  | JUndefined | JNull => "null"
  | JBool b => if b then "true" else "false"
  | JNum n => pretty n
  | JStr s => quoted s
  | JArr xs =>
      "[" +:+
      String.concat ","
        ((fix items (xs : list jsval) : list string :=
            match xs with
            | [] => []
            | x :: rest => stringify x :: items rest
            end) xs) +:+ "]"
  | JObj ms =>
      "{" +:+
      String.concat ","
        ((fix items (ms : list (string * jsval)) : list string :=
            match ms with
            | [] => []
            | (k, JUndefined) :: rest => items rest
            | (k, x) :: rest => (quoted k +:+ ":" +:+ stringify x) :: items rest
            end) ms) +:+ "}"
  end.

Definition uuid (n : nat) : string := "uuid-" +:+ pretty n.

Definition Engine : Type := list jsval.

Definition create : Engine := [].

Definition pong (id : jsval) : jsval :=
  JObj [("jsonrpc", JStr "2.0"); ("id", id); ("result", JObj [])].

Definition onmessage (e : Engine) (msg : jsval) : Engine * list jsval :=
  (e ++ [msg],
   match msg with
   | JObj ms =>
       if strict_eq_string (member "method" ms) "ping" && defined (member "id" ms)
       then [pong (member "id" ms)] else []
   | _ => []
   end).

(** The same engine with a callback that throws on the method [crash],
    once it has recorded the message. *)
Definition onmessage_throwing (e : Engine) (msg : jsval)
    : Engine * list jsval * Completion :=
  (onmessage e msg,
   match msg with
   | JObj ms =>
       if strict_eq_string (member "method" ms) "crash" then Throws (JStr "crash")
       else Returns
   | _ => Returns
   end).

Definition POST_ (sid : option string) (body : jsval) : Event :=
  Http (mkRequest POST None sid body).

Definition GET_ (sid : option string) : Event :=
  Http (mkRequest GET None sid JUndefined).

Definition step := step stringify uuid Engine create onmessage.
Definition run := run stringify uuid Engine create onmessage.

Definition initialize : jsval :=
  JObj [("jsonrpc", JStr "2.0"); ("id", JNum 1); ("method", JStr "initialize")].

Definition request (id : Z) (method : string) : jsval :=
  JObj [("jsonrpc", JStr "2.0"); ("id", JNum id); ("method", JStr method)].

Definition result (id : Z) : jsval :=
  JObj [("jsonrpc", JStr "2.0"); ("id", JNum id); ("result", JObj [])].

(** The process once a first client has initialized: session [uuid-0],
    whose SSE stream is response 0. *)
Definition session0 : Session Engine :=
  mkSession [initialize] (mkTransport true true (Some 0) [] "uuid-0" None).

Definition opened : World Engine :=
  match run 1 (boot None) [POST_ None initialize] with
  | Ok w => w
  | _ => boot None
  end.

(** The process a little later: a GET for a session nobody opened has
    been answered 404 on response 1, and two requests, 2 and 3, have
    been submitted on the session and wait for their answers. *)
Definition busy : World Engine :=
  match run 1 opened
          [GET_ (Some "nobody");
           POST_ (Some "uuid-0") (request 2 "tools/list");
           POST_ (Some "uuid-0") (request 3 "tools/call")] with
  | Ok w => w
  | _ => opened
  end.

(** A tool table with one entry, [echo]: its schema accepts the
    objects, its handler returns its arguments. *)
Definition echo : Tools.Tool unit unit :=
  Tools.mkTool unit unit (Some "Echo the arguments") tt (fun data context => (context, inl data)).

Definition tools : list (string * Tools.Tool unit unit) := [("echo", echo)].

Definition accepts_objects (schema : unit) (v : jsval) : Tools.SafeParse :=
  match v with
  | JObj _ => Tools.ParseSuccess v
  | _ => Tools.ParseFailure [Tools.mkIssue [] "Expected object"]
  end.

(** [initialize] sent without [id]. *)
Definition initialize_notification : jsval :=
  JObj [("jsonrpc", JStr "2.0"); ("method", JStr "initialize")].

(** A message with [method], [id] and [result] at once. *)
Definition request_with_result (method : string) : list (string * jsval) :=
  [("jsonrpc", JStr "2.0"); ("id", JNum 7); ("method", JStr method);
   ("result", JObj [])].

End Demo.

(** * Properties *)

(** ** The classifier *)

Lemma is_string_spec v : is_string v = true <-> exists s, v = JStr s.
Proof.
  split.
  - destruct v; cbn; try discriminate. eauto.
  - intros [s ->]. reflexivity.
Qed.

Lemma holds_isInitializeRequest_obj ms :
  holds (isInitializeRequest (JObj ms)) =
  Ok (strict_eq_string (member "method" ms) "initialize").
Proof. reflexivity. Qed.

Lemma holds_isRequest_obj ms :
  holds (isRequest (JObj ms)) =
  Ok (is_string (member "method" ms) && defined (member "id" ms)).
Proof.
  unfold isRequest, holds, js_and, is_string, defined, member. cbn.
  destruct (String.eqb (typeof _) "string"); reflexivity.
Qed.

Lemma holds_isNotification_obj ms :
  holds (isNotification (JObj ms)) =
  Ok (is_string (member "method" ms) && is_undefined (member "id" ms)).
Proof.
  unfold isNotification, holds, js_and, is_string, member. cbn.
  destruct (String.eqb (typeof _) "string"); reflexivity.
Qed.

Lemma holds_isResponse_obj ms :
  holds (isResponse (JObj ms)) =
  Ok ((defined (member "result" ms) || defined (member "error" ms))
      && defined (member "id" ms)).
Proof.
  unfold isResponse, holds, js_and, js_or, defined, member. cbn.
  destruct (is_undefined (default JUndefined (own_prop "result" ms))); cbn;
    [destruct (is_undefined (default JUndefined (own_prop "error" ms))) |];
    reflexivity.
Qed.

Lemma holds_notification_or_response_obj ms :
  holds (isNotification (JObj ms) ||| isResponse (JObj ms)) =
  Ok (is_string (member "method" ms) && is_undefined (member "id" ms)
      || (defined (member "result" ms) || defined (member "error" ms))
         && defined (member "id" ms)).
Proof.
  pose proof (holds_isNotification_obj ms) as Hn.
  pose proof (holds_isResponse_obj ms) as Hr.
  unfold holds, js_or in *.
  destruct (isNotification (JObj ms)) as [n| |]; try discriminate.
  destruct (isResponse (JObj ms)) as [r| |]; try discriminate.
  cbn in *. injection Hn as <-. injection Hr as <-.
  destruct (truthy n) eqn:E; cbn; rewrite ?E; reflexivity.
Qed.

(** Only an object can satisfy a predicate whose second conjunct reads a
    member that no other kind of value has. *)
Lemma holds_isRequest_object msg :
  holds (isRequest msg) = Ok true -> exists ms, msg = JObj ms.
Proof.
  intros H. destruct msg as [| |b|n|s|xs|ms]; cbn in H; try discriminate H; eauto.
  - destruct b; cbn in H; discriminate H.
  - destruct n; cbn in H; discriminate H.
  - destruct s; cbn in H; discriminate H.
Qed.

(** C7. The four classifier predicates never throw and always return,
    whatever value they are given (object or not, members of any type);
    being functions of the message alone, with no access to the process
    state, they have no side effect and give one answer per input. *)
Theorem classifier_total_and_pure (msg : jsval) :
  (exists r, isInitializeRequest msg = Ok r) /\
  (exists r, isRequest msg = Ok r) /\
  (exists r, isNotification msg = Ok r) /\
  (exists r, isResponse msg = Ok r) /\
  (exists b, holds (isNotification msg ||| isResponse msg) = Ok b).
Proof.
  destruct msg as [| |b|n|s|xs|ms].
  1-2: cbn; eauto 10.
  all: unfold isInitializeRequest, isRequest, isNotification, isResponse,
         holds, js_or, js_and; cbn;
       repeat match goal with |- context [if ?c then _ else _] => destruct c; cbn end;
       eauto 10.
Qed.

(** ** The transport *)

Section TransportProperties.

Variable JSON_stringify : jsval -> string.
Variable uuidv4 : nat -> string.

Local Abbreviation send := (send JSON_stringify uuidv4).
Local Abbreviation flush := (flush JSON_stringify uuidv4).
Local Abbreviation frame := (frame JSON_stringify uuidv4).
Local Abbreviation write_frames := (write_frames JSON_stringify uuidv4).

Lemma get_response_update r f h :
  get_response r (update_response r f h) = f (get_response r h).
Proof. unfold get_response, update_response. cbn. by rewrite lookup_insert_eq. Qed.

Lemma get_response_update_ne r r' f h :
  r <> r' -> get_response r' (update_response r f h) = get_response r' h.
Proof. intros Hne. unfold get_response, update_response. cbn. by rewrite lookup_insert_ne. Qed.

Lemma write_frames_cons r m msgs h :
  write_frames r (m :: msgs) h =
  write_frames r msgs
    (update_response r (res_write (frame (uuid_count h) m)) (snd (draw_uuid uuidv4 h))).
Proof. reflexivity. Qed.

Lemma write_frames_response r msgs : forall h,
  chunks (get_response r (write_frames r msgs h)) =
    chunks (get_response r h) ++ imap (fun i m => frame (uuid_count h + i) m) msgs /\
  writableEnded (get_response r (write_frames r msgs h)) =
    writableEnded (get_response r h) /\
  statusCode (get_response r (write_frames r msgs h)) = statusCode (get_response r h) /\
  headers (get_response r (write_frames r msgs h)) = headers (get_response r h).
Proof.
  induction msgs as [|m msgs IH]; intros h.
  - cbn. by rewrite app_nil_r.
  - rewrite write_frames_cons.
    destruct (IH (update_response r (res_write (frame (uuid_count h) m))
                    (snd (draw_uuid uuidv4 h)))) as (Hc & He & Hs & Hh).
    rewrite Hc, He, Hs, Hh, get_response_update. cbn.
    repeat split. rewrite <- app_assoc. cbn. rewrite Nat.add_0_r.
    do 2 f_equal. apply imap_ext. intros i x _. cbn. f_equal. lia.
Qed.

Lemma write_frames_other r msgs : forall h,
  promises (write_frames r msgs h) = promises h /\
  trace (write_frames r msgs h) = trace h /\
  uuid_count (write_frames r msgs h) = uuid_count h + length msgs /\
  forall r', r <> r' -> get_response r' (write_frames r msgs h) = get_response r' h.
Proof.
  induction msgs as [|m msgs IH]; intros h.
  - cbn. repeat split. lia.
  - rewrite write_frames_cons.
    destruct (IH (update_response r (res_write (frame (uuid_count h) m))
                    (snd (draw_uuid uuidv4 h)))) as (Hp & Ht & Hu & Hr).
    rewrite Hp, Ht, Hu. cbn. repeat split; [lia |].
    intros r' Hne. rewrite Hr by done. by rewrite get_response_update_ne.
Qed.

(** The three ways of [send]. *)

Lemma send_pending t msg h p :
  _pendingRequestHandler t = Some p ->
  send t msg h = (set_pendingSlot None t, resolve p msg h).
Proof. intros Hp. unfold send. by rewrite Hp. Qed.

Lemma send_sink t msg h r :
  _pendingRequestHandler t = None ->
  _currentResponse t = Some r ->
  writableEnded (get_response r h) = false ->
  send t msg h = (t, write_frames r [msg] h).
Proof.
  intros Hp Hr He. unfold send, sink_open. by rewrite Hp, Hr, He.
Qed.

Lemma send_queue t msg h :
  _pendingRequestHandler t = None ->
  sink_open t h = false ->
  send t msg h = (set_messageQueue (_messageQueue t ++ [msg]) t, h).
Proof. intros Hp Hs. unfold send. by rewrite Hp, Hs. Qed.

Lemma flush_to_sink r : forall q fuel t h,
  _messageQueue t = q ->
  _pendingRequestHandler t = None ->
  _currentResponse t = Some r ->
  writableEnded (get_response r h) = false ->
  Forall (fun m => truthy m = true) q ->
  length q <= fuel ->
  flush fuel t h = Ok (set_messageQueue [] t, write_frames r q h).
Proof.
  induction q as [|m q IH]; intros fuel t h Hq Hp Hr He Hall Hfuel.
  - destruct t; cbn in *; subst. by destruct fuel.
  - destruct fuel as [|fuel]; [cbn in Hfuel; lia |].
    apply Forall_cons in Hall as [Hm Hall].
    cbn. rewrite Hq, Hm.
    rewrite (send_sink _ _ _ r) by (destruct t; done).
    rewrite (IH fuel (set_messageQueue q t)); try (by destruct t).
    + destruct (write_frames_response r [m] h) as (_ & -> & _). done.
    + cbn in Hfuel. lia.
Qed.

Lemma send_all_queue : forall msgs t h,
  _pendingRequestHandler t = None ->
  _currentResponse t = None ->
  send_all JSON_stringify uuidv4 msgs t h =
  (set_messageQueue (_messageQueue t ++ msgs) t, h).
Proof.
  induction msgs as [|m msgs IH]; intros t h Hp Hr.
  - cbn. rewrite app_nil_r. by destruct t.
  - unfold send_all in *. cbn [fold_left fst snd].
    rewrite send_queue by (done || by unfold sink_open; rewrite Hr).
    rewrite IH by (by destruct t). cbn. rewrite <- app_assoc. by destruct t.
Qed.

(** Why the sink must be live: on a sink that has ended [send] puts
    the message back on the queue, and the loop of [attachResponse]
    never ends. *)
Lemma flush_ended_sink_diverges fuel : forall t h,
  _pendingRequestHandler t = None ->
  sink_open t h = false ->
  _messageQueue t <> [] ->
  Forall (fun m => truthy m = true) (_messageQueue t) ->
  flush fuel t h = Diverge.
Proof.
  induction fuel as [|fuel IH]; intros t h Hp Hs Hq Hall; cbn;
    destruct (_messageQueue t) as [|m rest] eqn:E; try done.
  apply Forall_cons in Hall as [Hm Hall]. rewrite Hm.
  rewrite send_queue by (by destruct t). apply IH.
  - by destruct t.
  - by destruct t.
  - destruct t; cbn. by destruct rest.
  - destruct t; cbn. apply Forall_app. split; [done | by constructor].
Qed.



End TransportProperties.

(** ** The handlers *)

Section HandlerProperties.

Variable JSON_stringify : jsval -> string.
Variable uuidv4 : nat -> string.
Variable Engine : Type.
Variable createMcpServer : Engine.
Variable engine_onmessage : Engine -> jsval -> Engine * list jsval.

Local Abbreviation send := (send JSON_stringify uuidv4).
Local Abbreviation send_all := (send_all JSON_stringify uuidv4).
Local Abbreviation handleMessage :=
  (handleMessage JSON_stringify uuidv4 Engine engine_onmessage).
Local Abbreviation post_mcp :=
  (post_mcp JSON_stringify uuidv4 Engine createMcpServer engine_onmessage).
Local Abbreviation post_initialize :=
  (post_initialize JSON_stringify uuidv4 Engine createMcpServer engine_onmessage).
Local Abbreviation post_accepted :=
  (post_accepted JSON_stringify uuidv4 Engine engine_onmessage).
Local Abbreviation post_request :=
  (post_request JSON_stringify uuidv4 Engine engine_onmessage).
Local Abbreviation post_mcp_resume := (post_mcp_resume JSON_stringify Engine).
Local Abbreviation resume := (resume JSON_stringify Engine).
Local Abbreviation engine_send := (engine_send JSON_stringify uuidv4 Engine).
Local Abbreviation serve :=
  (serve JSON_stringify uuidv4 Engine createMcpServer engine_onmessage).

Implicit Types (w : World Engine) (s : Session Engine) (t : Transport) (h : Heap).

Lemma header_value_some sid : sid <> EmptyString -> header_value (Some sid) = Some sid.
Proof.
  intros Hne. unfold header_value.
  destruct (String.eqb sid EmptyString) eqn:E; [| done].
  apply String.eqb_eq in E. done.
Qed.

Lemma extends_refl r : extends r r.
Proof. repeat split. exists []. by rewrite app_nil_r. Qed.

Lemma extends_trans r1 r2 r3 : extends r1 r2 -> extends r2 r3 -> extends r1 r3.
Proof.
  intros (Hs1 & Hh1 & He1 & m1 & Hc1) (Hs2 & Hh2 & He2 & m2 & Hc2).
  repeat split; try congruence.
  exists (m1 ++ m2). by rewrite Hc2, Hc1, app_assoc.
Qed.

Lemma send_frame t msg h :
  same_wiring t (fst (send t msg h)) /\
  forall r, extends (get_response r h) (get_response r (snd (send t msg h))).
Proof.
  unfold send.
  destruct (_pendingRequestHandler t) as [p|]; cbn.
  { split; [by destruct t | intros r; apply extends_refl]. }
  destruct (sink_open t h) eqn:Hopen; cbn.
  2: { split; [by destruct t | intros r; apply extends_refl]. }
  destruct (_currentResponse t) as [r0|]; cbn.
  2: { split; [done | intros r; apply extends_refl]. }
  split; [done |]. intros r.
  destruct (decide (r0 = r)) as [->|Hne].
  - rewrite get_response_update. cbn. repeat split. eexists. reflexivity.
  - rewrite get_response_update_ne by done. apply extends_refl.
Qed.

Lemma send_all_cons m outs t h :
  send_all (m :: outs) t h = send_all outs (fst (send t m h)) (snd (send t m h)).
Proof. unfold send_all. cbn. by destruct (send t m h). Qed.

Lemma send_all_frame outs : forall t h,
  same_wiring t (fst (send_all outs t h)) /\
  forall r, extends (get_response r h) (get_response r (snd (send_all outs t h))).
Proof.
  induction outs as [|m outs IH]; intros t h.
  - cbn. split; [done | intros r; apply extends_refl].
  - rewrite send_all_cons.
    destruct (send_frame t m h) as [Hw1 He1].
    destruct (IH (fst (send t m h)) (snd (send t m h))) as [Hw2 He2].
    split.
    + destruct Hw1 as (? & ? & ? & ?), Hw2 as (? & ? & ? & ?).
      repeat split; congruence.
    + intros r. eapply extends_trans; [apply He1 | apply He2].
Qed.

(** With no pending request handler installed, a [send] leaves the slot
    empty, touches no promise, logs nothing, and writes at most to the
    sink. *)
Lemma send_idle t msg h :
  _pendingRequestHandler t = None ->
  _pendingRequestHandler (fst (send t msg h)) = None /\
  promises (snd (send t msg h)) = promises h /\
  trace (snd (send t msg h)) = trace h /\
  forall r, _currentResponse t <> Some r ->
    get_response r (snd (send t msg h)) = get_response r h.
Proof.
  intros Hp. unfold send. rewrite Hp.
  destruct (sink_open t h); cbn; [| by destruct t].
  destruct (_currentResponse t) as [r0|]; cbn; [| done].
  repeat split; try done.
  intros r Hne. rewrite get_response_update_ne by congruence. done.
Qed.

Lemma send_all_idle outs : forall t h,
  _pendingRequestHandler t = None ->
  _pendingRequestHandler (fst (send_all outs t h)) = None /\
  promises (snd (send_all outs t h)) = promises h /\
  trace (snd (send_all outs t h)) = trace h /\
  forall r, _currentResponse t <> Some r ->
    get_response r (snd (send_all outs t h)) = get_response r h.
Proof.
  induction outs as [|m outs IH]; intros t h Hp.
  - done.
  - rewrite send_all_cons.
    destruct (send_idle t m h Hp) as (Hp1 & Hpr1 & Htr1 & Hr1).
    destruct (send_frame t m h) as [(Hcur & _) _].
    destruct (IH _ (snd (send t m h)) Hp1) as (Hp2 & Hpr2 & Htr2 & Hr2).
    repeat split; try congruence.
    intros r Hne. rewrite Hr2 by congruence. by apply Hr1.
Qed.

Lemma handleMessage_connected s body h :
  _onmessage (transport s) = true ->
  handleMessage s body h =
  (mkSession (fst (engine_onmessage (server s) body))
     (fst (send_all (snd (engine_onmessage (server s) body)) (transport s)
             (log (ODeliver (_sessionId (transport s)) body) h))),
   snd (send_all (snd (engine_onmessage (server s) body)) (transport s)
          (log (ODeliver (_sessionId (transport s)) body) h))).
Proof.
  intros Hon. unfold handleMessage. rewrite Hon.
  destruct (engine_onmessage (server s) body) as [e' outs]. cbn [fst snd].
  by destruct (send_all outs _ _).
Qed.

(** The classification of an object by the handler's tests. *)
Lemma route_obj ms :
  route (JObj ms) =
  Ok (if is_string (member "method" ms) && is_undefined (member "id" ms)
         || (defined (member "result" ms) || defined (member "error" ms))
            && defined (member "id" ms)
      then RAccepted
      else if is_string (member "method" ms) && defined (member "id" ms)
           then RRequest else RInvalid).
Proof.
  unfold route.
  rewrite holds_notification_or_response_obj. cbn [bind].
  destruct (_ || _); [done |].
  rewrite holds_isRequest_obj. cbn [bind]. by destruct (_ && _).
Qed.

Lemma route_request_inv body :
  route body = Ok RRequest ->
  exists ms, body = JObj ms /\
    is_string (member "method" ms) = true /\ defined (member "id" ms) = true /\
    defined (member "result" ms) = false /\ defined (member "error" ms) = false.
Proof.
  intros H.
  assert (exists ms, body = JObj ms) as [ms ->].
  { unfold route in H.
    destruct (holds (isNotification body ||| isResponse body)) as [[]| |];
      cbn in H; try discriminate H.
    destruct (holds (isRequest body)) as [[]| |] eqn:E; cbn in H; try discriminate H.
    by apply holds_isRequest_object. }
  exists ms. split; [done |].
  rewrite route_obj in H.
  destruct (is_string (member "method" ms)), (is_undefined (member "id" ms)) eqn:Hid,
    (defined (member "result" ms)), (defined (member "error" ms));
    unfold defined in *; rewrite ?Hid in *; cbn in *; try discriminate H; done.
Qed.

(** On a known session the handler does what [route] selects. *)
Lemma post_mcp_known fuel rid sid s body w :
  sid <> EmptyString ->
  sessions w !! sid = Some s ->
  post_mcp fuel rid (Some sid) body w =
  do r <- route body;
  Ok match r with
     | RAccepted => post_accepted rid sid s body w
     | RRequest => post_request rid sid s body w
     | RInvalid =>
         reply rid (fun r => res_send "Invalid JSON-RPC message" (res_status 400 r)) w
     end.
Proof.
  intros Hne Hs. unfold post_mcp, route.
  rewrite header_value_some, Hs by done.
  destruct (holds (isNotification body ||| isResponse body)) as [[]| |]; cbn; try done.
  by destruct (holds (isRequest body)) as [[]| |].
Qed.

Lemma post_mcp_no_session fuel rid sessionId body w :
  header_value sessionId = None ->
  post_mcp fuel rid sessionId body w =
  do init <- holds (isInitializeRequest body);
  if init : bool then post_initialize fuel rid body w
  else Ok (reply rid (fun r => res_send "Missing MCP-Session-Id header" (res_status 400 r)) w).
Proof. intros H. unfold post_mcp. by rewrite H. Qed.

Lemma flush_empty fuel t h :
  _messageQueue t = [] -> flush JSON_stringify uuidv4 fuel t h = Ok (t, h).
Proof. intros Hq. destruct fuel; cbn; by rewrite Hq. Qed.

Lemma get_response_log r o h : get_response r (log o h) = get_response r h.
Proof. reflexivity. Qed.

Lemma open_stream_response rid sessionId h :
  get_response rid (open_stream uuidv4 rid sessionId h) =
  bootstrapped sessionId (uuidv4 (uuid_count h)) (get_response rid h).
Proof.
  unfold open_stream. cbn [draw_uuid]. rewrite get_response_update.
  match goal with
  | |- context [get_response rid (mkHeap (responses ?h1) _ _ _)] =>
      change (get_response rid (mkHeap (responses h1) _ _ _)) with (get_response rid h1)
  end.
  by rewrite get_response_update.
Qed.

Lemma post_initialize_spec fuel rid body w :
  let sessionId := uuidv4 (uuid_count (heap w)) in
  let eventId := uuidv4 (S (uuid_count (heap w))) in
  exists w' s,
    post_initialize fuel rid body w = Ok w' /\
    sessions w' = <[sessionId := s]> (sessions w) /\
    server s = fst (engine_onmessage createMcpServer body) /\
    _sessionId (transport s) = sessionId /\
    _currentResponse (transport s) = Some rid /\
    _onmessage (transport s) = true /\
    extends (bootstrapped sessionId eventId (get_response rid (heap w)))
      (get_response rid (heap w')).
Proof.
  intros sessionId eventId. unfold post_initialize.
  cbn [draw_uuid connect transport server].
  unfold attachResponse. rewrite flush_empty by done. cbn [bind].
  rewrite handleMessage_connected by done. cbn [transport server].
  match goal with
  | |- context [send_all ?outs ?t1 ?h5] =>
      destruct (send_all_frame outs t1 h5) as [(Hcur & Hid & Hon & _) He];
      specialize (He rid)
  end.
  rewrite get_response_log, open_stream_response in He.
  eexists _, _. split; [reflexivity |]. cbn [with_session sessions heap transport server].
  do 5 (split; [done |]). exact He.
Qed.

Lemma installs_app tr1 tr2 : installs (tr1 ++ tr2) = installs tr1 + installs tr2.
Proof. induction tr1 as [|o tr1 IH]; cbn; [done | rewrite IH; lia]. Qed.

(** A [send] installs nothing. *)
Lemma send_installs t msg h :
  installs (trace (snd (send t msg h))) = installs (trace h).
Proof.
  unfold send. destruct (_pendingRequestHandler t) as [p|]; cbn.
  { rewrite installs_app. cbn. lia. }
  destruct (sink_open t h); [| done].
  by destruct (_currentResponse t).
Qed.

Lemma send_all_installs outs : forall t h,
  installs (trace (snd (send_all outs t h))) = installs (trace h).
Proof.
  induction outs as [|m outs IH]; intros t h; [done |].
  by rewrite send_all_cons, IH, send_installs.
Qed.

Lemma handleMessage_installs s body h :
  installs (trace (snd (handleMessage s body h))) = installs (trace h).
Proof.
  destruct (_onmessage (transport s)) eqn:Hon.
  - rewrite handleMessage_connected by done. cbn [snd].
    rewrite send_all_installs. unfold log. cbn. rewrite installs_app. cbn. lia.
  - unfold handleMessage. by rewrite Hon.
Qed.

Lemma handleMessage_frame s body h :
  same_wiring (transport s) (transport (fst (handleMessage s body h))) /\
  forall r, extends (get_response r h) (get_response r (snd (handleMessage s body h))).
Proof.
  destruct (_onmessage (transport s)) eqn:Hon.
  - rewrite handleMessage_connected by done. cbn [fst snd transport].
    match goal with
    | |- context [send_all ?outs ?t1 ?h1] =>
        destruct (send_all_frame outs t1 h1) as [Hw He]
    end.
    split; [exact Hw | intros r; exact (He r)].
  - unfold handleMessage. rewrite Hon. cbn. split; [done | intros r; apply extends_refl].
Qed.

(** The 202 branch: the message is delivered, the reply is an empty
    202, and no pending request handler is installed. *)
Lemma post_accepted_spec rid sid s body w :
  exists s',
    sessions (post_accepted rid sid s body w) = <[sid := s']> (sessions w) /\
    statusCode (get_response rid (heap (post_accepted rid sid s body w))) = 202%Z /\
    writableEnded (get_response rid (heap (post_accepted rid sid s body w))) = true /\
    headers (get_response rid (heap (post_accepted rid sid s body w))) =
      headers (get_response rid (heap w)) /\
    installs (trace (heap (post_accepted rid sid s body w))) = installs (trace (heap w)).
Proof.
  unfold post_accepted.
  pose proof (handleMessage_installs s body (heap w)) as Hi.
  destruct (handleMessage_frame s body (heap w)) as [_ He].
  destruct (He rid) as (_ & Hh & _).
  destruct (handleMessage s body (heap w)) as [s' h'].
  exists s'. cbn [with_session sessions heap snd] in *.
  rewrite get_response_update. cbn. done.
Qed.

(** The request branch: the promise is created, its [resolve] installed
    on the transport, then the message delivered; the first message the
    engine sends from its callback settles the promise, and the handler
    has not written to its response. *)
Lemma post_request_spec rid sid s body w :
  _onmessage (transport s) = true ->
  _currentResponse (transport s) <> Some rid ->
  exists s1,
    sessions (post_request rid sid s body w) = <[sid := s1]> (sessions w) /\
    server s1 = fst (engine_onmessage (server s) body) /\
    same_wiring (transport s) (transport s1) /\
    get_response rid (heap (post_request rid sid s body w)) = get_response rid (heap w) /\
    match snd (engine_onmessage (server s) body) with
    | [] =>
        _pendingRequestHandler (transport s1) = Some rid /\
        promises (heap (post_request rid sid s body w)) !! rid = Some Pending /\
        trace (heap (post_request rid sid s body w)) =
          trace (heap w) ++ [OInstall (_sessionId (transport s)) rid;
                             ODeliver (_sessionId (transport s)) body]
    | m :: _ =>
        _pendingRequestHandler (transport s1) = None /\
        promises (heap (post_request rid sid s body w)) !! rid = Some (Fulfilled m) /\
        trace (heap (post_request rid sid s body w)) =
          trace (heap w) ++ [OInstall (_sessionId (transport s)) rid;
                             ODeliver (_sessionId (transport s)) body;
                             OResolve rid m]
    end.
Proof.
  intros Hon Hsink. unfold post_request, setPendingRequestHandler.
  rewrite handleMessage_connected by (by destruct s as [e []]).
  cbn [transport server with_session sessions heap].
  eexists. split; [reflexivity |]. cbn [server transport].
  split; [done |].
  destruct (snd (engine_onmessage (server s) body)) as [|m outs].
  - cbn. rewrite lookup_insert_eq, <- !app_assoc. by destruct s as [e []].
  - rewrite send_all_cons.
    rewrite (send_pending _ _ _ _ _ rid) by (by destruct s as [e []]).
    cbn [fst snd].
    match goal with
    | |- context [send_all outs ?t1 ?h1] =>
        destruct (send_all_idle outs t1 h1) as (Hp & Hpr & Htr & Hr);
          [by destruct s as [e []] |];
        destruct (send_all_frame outs t1 h1) as [Hw _]
    end.
    split; [| split; [| split; [done | split]]].
    + destruct Hw as (? & ? & ? & ?). destruct s as [e []]. cbn in *. done.
    + rewrite Hr by (by destruct s as [e []]). done.
    + rewrite Hpr. cbn. rewrite lookup_alter_eq, lookup_insert_eq. done.
    + rewrite Htr. cbn. rewrite <- !app_assoc. by destruct s as [e []].
Qed.

Lemma reply_spec rid f w :
  sessions (reply rid f w) = sessions w /\
  trace (heap (reply rid f w)) = trace (heap w) /\
  promises (heap (reply rid f w)) = promises (heap w) /\
  uuid_count (heap (reply rid f w)) = uuid_count (heap w) /\
  get_response rid (heap (reply rid f w)) = f (get_response rid (heap w)) /\
  forall r, r <> rid -> get_response r (heap (reply rid f w)) = get_response r (heap w).
Proof.
  unfold reply. cbn. rewrite get_response_update. repeat split.
  intros r Hne. by apply get_response_update_ne.
Qed.

(** C6. A POST that names a session the registry does not hold is
    answered 404 whatever its body; nothing is delivered to any engine
    and neither the registry nor any session changes. *)
Theorem post_unknown_session_not_found fuel rid sid body w :
  sid <> EmptyString ->
  sessions w !! sid = None ->
  exists w',
    post_mcp fuel rid (Some sid) body w = Ok w' /\
    sessions w' = sessions w /\
    trace (heap w') = trace (heap w) /\
    promises (heap w') = promises (heap w) /\
    statusCode (get_response rid (heap w')) = 404%Z /\
    writableEnded (get_response rid (heap w')) = true /\
    chunks (get_response rid (heap w')) =
      chunks (get_response rid (heap w)) ++ ["Session not found"] /\
    forall r, r <> rid -> get_response r (heap w') = get_response r (heap w).
Proof.
  intros Hne Hs. unfold post_mcp. rewrite header_value_some, Hs by done.
  eexists. split; [reflexivity |].
  destruct (reply_spec rid
              (fun r => res_send "Session not found" (res_status 404 r)) w)
    as (H1 & H2 & H3 & _ & H5 & H6).
  rewrite H1, H2, H3, H5. done.
Qed.

(** Without a session header everything depends on
    [isInitializeRequest], which looks at [method] alone. *)
Lemma holds_isInitializeRequest msg :
  exists b, holds (isInitializeRequest msg) = Ok b /\
    (b = true <-> exists ms, msg = JObj ms /\ member "method" ms = JStr "initialize").
Proof.
  destruct msg as [| |b|n|str|xs|ms].
  1-6: exists false; split;
    [| split; [discriminate | by intros (ms & ? & _)]].
  1-2, 6: reflexivity.
  1: by destruct b.
  1: by destruct n.
  1: by destruct str.
  exists (strict_eq_string (member "method" ms) "initialize").
  split; [apply holds_isInitializeRequest_obj |].
  split.
  - intros H. exists ms. split; [done |].
    destruct (member "method" ms) as [| | | |str| |]; cbn in H; try discriminate H.
    apply String.eqb_eq in H. by subst.
  - intros (ms' & [= <-] & ->). reflexivity.
Qed.

Lemma post_without_session_refused fuel rid sessionId body w :
  header_value sessionId = None ->
  holds (isInitializeRequest body) = Ok false ->
  post_mcp fuel rid sessionId body w =
  Ok (reply rid (fun r => res_send "Missing MCP-Session-Id header" (res_status 400 r)) w).
Proof. intros Hh Hi. rewrite post_mcp_no_session by done. by rewrite Hi. Qed.

(** C5, at the input where the code leaves the claim: a POST without
    session header whose body is [{"jsonrpc":"2.0","method":"initialize"}],
    a notification and not a request since it has no [id], is not
    refused: a session is created under a new identifier, registered,
    and its SSE stream opened on the response. *)
Theorem initialize_notification_opens_session fuel rid w :
  holds (isRequest Demo.initialize_notification) = Ok false /\
  holds (isNotification Demo.initialize_notification) = Ok true /\
  exists w' s,
    post_mcp fuel rid None Demo.initialize_notification w = Ok w' /\
    sessions w' = <[uuidv4 (uuid_count (heap w)) := s]> (sessions w) /\
    _sessionId (transport s) = uuidv4 (uuid_count (heap w)) /\
    _currentResponse (transport s) = Some rid /\
    extends
      (bootstrapped (uuidv4 (uuid_count (heap w))) (uuidv4 (S (uuid_count (heap w))))
         (get_response rid (heap w)))
      (get_response rid (heap w')).
Proof.
  split; [reflexivity |]. split; [reflexivity |].
  rewrite post_mcp_no_session by done. cbn [holds bind].
  change (holds (isInitializeRequest Demo.initialize_notification)) with (Ok true).
  cbn [bind].
  destruct (post_initialize_spec fuel rid Demo.initialize_notification w)
    as (w' & s & Hrun & Hs & _ & Hid & Hcur & _ & Hext).
  exists w', s. done.
Qed.



Lemma resume_fulfilled rid m w :
  promises (heap w) !! rid = Some (Fulfilled m) ->
  get_response rid (heap (resume rid w)) = res_json JSON_stringify m (get_response rid (heap w)) /\
  sessions (resume rid w) = sessions w /\
  promises (heap (resume rid w)) !! rid = None.
Proof.
  intros Hp. unfold resume. rewrite Hp. unfold post_mcp_resume, reply. cbn.
  rewrite get_response_update, lookup_delete_eq. done.
Qed.

Lemma resume_waiting rid w :
  promises (heap w) !! rid = Some Pending \/ promises (heap w) !! rid = None ->
  resume rid w = w.
Proof. intros [Hp|Hp]; unfold resume; by rewrite Hp. Qed.

(** The engine sends while the handler of [rid] holds the slot. *)
Lemma engine_send_to_responder sid s rid m w :
  sessions w !! sid = Some s ->
  _pendingRequestHandler (transport s) = Some rid ->
  promises (heap w) !! rid = Some Pending ->
  promises (heap (engine_send sid m w)) !! rid = Some (Fulfilled m) /\
  responses (heap (engine_send sid m w)) = responses (heap w) /\
  trace (heap (engine_send sid m w)) = trace (heap w) ++ [OResolve rid m] /\
  exists s', sessions (engine_send sid m w) !! sid = Some s' /\
    _pendingRequestHandler (transport s') = None.
Proof.
  intros Hs Hslot Hp. unfold engine_send. rewrite Hs.
  rewrite (send_pending _ _ _ _ _ rid) by done. cbn.
  rewrite lookup_alter_eq, Hp, lookup_insert_eq. cbn. eauto 10.
Qed.

(** ** An invariant of the process

    Every session of the registry is connected to its engine, and its
    sink is the response of a request that has already arrived: the
    response object of a new request is never a sink. *)

Lemma same_wiring_refl t : same_wiring t t.
Proof. done. Qed.

Lemma same_wiring_trans t1 t2 t3 :
  same_wiring t1 t2 -> same_wiring t2 t3 -> same_wiring t1 t3.
Proof.
  intros (? & ? & ? & ?) (? & ? & ? & ?). repeat split; congruence.
Qed.

Lemma flush_frame fuel : forall t h t' h',
  flush JSON_stringify uuidv4 fuel t h = Ok (t', h') -> same_wiring t t'.
Proof.
  induction fuel as [|fuel IH]; intros t h t' h' Hf; cbn in Hf;
    destruct (_messageQueue t) as [|m rest] eqn:Hq; try discriminate Hf.
  - by injection Hf as <- <-.
  - by injection Hf as <- <-.
  - destruct (truthy m).
    + destruct (send (set_messageQueue rest t) m h) as [t2 h2] eqn:Hs.
      destruct (send_frame (set_messageQueue rest t) m h) as [Hw _].
      rewrite Hs in Hw. cbn [fst] in Hw.
      eapply same_wiring_trans; [| eapply IH; exact Hf].
      eapply same_wiring_trans; [| exact Hw]. by destruct t.
    + eapply same_wiring_trans; [| eapply IH; exact Hf]. by destruct t.
Qed.

Lemma wired_rewire n s s' :
  wired n s -> same_wiring (transport s) (transport s') -> wired n s'.
Proof.
  intros [Hon Hsink] (Hcur & _ & Hon' & _). split; [congruence |].
  intros r Hr. apply Hsink. congruence.
Qed.

Lemma wired_all_insert n sid s' h w :
  wired_all n w -> wired n s' -> wired_all n (with_session sid s' h w).
Proof.
  intros Hall Hs' sid0 s0. cbn. rewrite lookup_insert.
  case_decide; [intros [= <-]; done | apply Hall].
Qed.

Lemma wired_all_mono n m w : wired_all n w -> n <= m -> wired_all m w.
Proof.
  intros Hall Hle sid s Hs. destruct (Hall sid s Hs) as [Hon Hsink].
  split; [done |]. intros r Hr. specialize (Hsink r Hr). lia.
Qed.

Lemma post_initialize_next_req fuel rid body w w' :
  post_initialize fuel rid body w = Ok w' -> next_req w' = next_req w.
Proof.
  unfold post_initialize. cbn [draw_uuid connect transport server].
  unfold attachResponse. rewrite flush_empty by done. cbn [bind].
  destruct (handleMessage _ body _) as [s2 h6]. by intros [= <-].
Qed.

Lemma post_mcp_wired n fuel rid sessionId body w w' :
  wired_all n w -> rid < n ->
  post_mcp fuel rid sessionId body w = Ok w' ->
  wired_all n w' /\ next_req w' = next_req w.
Proof.
  intros Hall Hrid. unfold post_mcp.
  destruct (header_value sessionId) as [sid|].
  - destruct (sessions w !! sid) as [s|] eqn:Hs; [| by intros [= <-]].
    destruct (holds (isNotification body ||| isResponse body)) as [[]| |];
      cbn [bind]; try discriminate.
    + intros [= <-]. unfold post_accepted.
      destruct (handleMessage_frame s body (heap w)) as [Hw _].
      destruct (handleMessage s body (heap w)) as [s' h']. cbn [fst] in Hw.
      split; [| done]. apply wired_all_insert; [done |].
      eapply wired_rewire; [exact (Hall sid s Hs) | exact Hw].
    + destruct (holds (isRequest body)) as [[]| |]; cbn [bind]; try discriminate;
        [| by intros [= <-]].
      intros [= <-]. unfold post_request, setPendingRequestHandler.
      match goal with
      | |- context [handleMessage ?s0 body ?h0] =>
          destruct (handleMessage_frame s0 body h0) as [Hw _];
          destruct (handleMessage s0 body h0) as [s' h']
      end.
      cbn [fst transport] in Hw. split; [| done].
      apply wired_all_insert; [done |].
      eapply wired_rewire; [exact (Hall sid s Hs) |].
      eapply same_wiring_trans; [| exact Hw]. by destruct s as [e []].
  - destruct (holds (isInitializeRequest body)) as [[]| |]; cbn [bind]; try discriminate;
      [| by intros [= <-]].
    intros Hinit. split; [| by eapply post_initialize_next_req].
    destruct (post_initialize_spec fuel rid body w)
      as (w1 & s & Hrun & Hs & _ & _ & Hcur & Hon & _).
    rewrite Hrun in Hinit. injection Hinit as <-.
    intros sid0 s0. rewrite Hs, lookup_insert.
    case_decide; [| apply Hall].
    intros [= <-]. split; [done |]. intros r Hr. rewrite Hcur in Hr.
    by injection Hr as <-.
Qed.

Lemma get_mcp_wired n fuel rid sessionId w w' :
  wired_all n w -> rid < n ->
  get_mcp JSON_stringify uuidv4 Engine fuel rid sessionId w = Ok w' ->
  wired_all n w' /\ next_req w' = next_req w.
Proof.
  intros Hall Hrid. unfold get_mcp.
  destruct (header_value sessionId) as [sid|]; [| by intros [= <-]].
  destruct (sessions w !! sid) as [s|] eqn:Hs; [| by intros [= <-]].
  cbn [draw_uuid]. unfold attachResponse.
  destruct (flush _ _ _ _ _) as [[t' h4]| |] eqn:Hf; cbn [bind]; try discriminate.
  intros [= <-]. split; [| done].
  apply flush_frame in Hf. destruct Hf as (Hcur & _ & Hon & _).
  apply wired_all_insert; [done |]. destruct (Hall sid s Hs) as [Hon0 _].
  split; cbn [transport].
  - rewrite Hon. by destruct s as [e []].
  - intros r. rewrite Hcur. destruct s as [e []]. cbn. by intros [= <-].
Qed.

Lemma serve_wf fuel req w w' : wf w -> serve fuel req w = Ok w' -> wf w'.
Proof.
  intros Hwf. unfold serve.
  assert (wired_all (S (next_req w)) (arrive w)) as Hall.
  { eapply (wired_all_mono (next_req w)); [exact Hwf | lia]. }
  destruct (security_middleware _ _ _ _) as [r1 []]; cbn [negb].
  2: { intros [= <-]. exact Hall. }
  destruct (cors_origin _ _); cbn [negb].
  2: { intros [= <-]. exact Hall. }
  destruct (verb req); intros Hh.
  - apply (get_mcp_wired (S (next_req w))) in Hh as [Hw' Hn]; [| done | lia].
    unfold wf. by rewrite Hn.
  - apply (post_mcp_wired (S (next_req w))) in Hh as [Hw' Hn]; [| done | lia].
    unfold wf. by rewrite Hn.
Qed.

Lemma step_wf fuel ev w w' :
  wf w -> step JSON_stringify uuidv4 Engine createMcpServer engine_onmessage fuel w ev = Ok w' ->
  wf w'.
Proof.
  intros Hwf. destruct ev as [req|sid msg|rid]; cbn [step].
  - by apply serve_wf.
  - intros [= <-]. unfold engine_send.
    destruct (sessions w !! sid) as [s|] eqn:Hs; [| done].
    destruct (send_frame (transport s) msg (heap w)) as [Hw _].
    destruct (send (transport s) msg (heap w)) as [t' h']. cbn [fst] in Hw.
    apply wired_all_insert; [done |].
    eapply wired_rewire; [exact (Hwf sid s Hs) | exact Hw].
  - intros [= <-]. unfold resume.
    by destruct (promises (heap w) !! rid) as [[]|].
Qed.

Lemma run_wf fuel evs : forall w w',
  wf w -> run JSON_stringify uuidv4 Engine createMcpServer engine_onmessage fuel w evs = Ok w' ->
  wf w'.
Proof.
  induction evs as [|ev evs IH]; intros w w' Hwf; cbn [run].
  - by intros [= <-].
  - destruct (step _ _ _ _ _ fuel w ev) as [w1| |] eqn:Hstep; cbn [bind]; try discriminate.
    apply IH. by eapply step_wf.
Qed.

Lemma reachable_wf w :
  reachable JSON_stringify uuidv4 Engine createMcpServer engine_onmessage w -> wf w.
Proof.
  intros (env & fuel & evs & Hrun). eapply run_wf; [| exact Hrun].
  intros sid s Hs. cbn in Hs. by rewrite lookup_empty in Hs.
Qed.

(** The two origin checks agree: the security middleware calls [next]
    exactly when the callback of [cors] accepts. *)
Lemma security_middleware_next env o r :
  snd (security_middleware JSON_stringify env o r) = cors_origin env o.
Proof.
  unfold security_middleware, cors_origin.
  destruct (header_value o) as [x|]; [| done].
  destruct (length (allowedOrigins env)); cbn; [done |].
  by destruct (includes (allowedOrigins env) x).
Qed.

Lemma serve_allowed fuel req w :
  cors_origin (ALLOWED_ORIGINS w) (origin req) = true ->
  serve fuel req w =
  match verb req with
  | GET => get_mcp JSON_stringify uuidv4 Engine fuel (next_req w) (mcp_session_id req) (arrive w)
  | POST => post_mcp fuel (next_req w) (mcp_session_id req) (body req) (arrive w)
  end.
Proof.
  intros Hok. unfold serve.
  pose proof (security_middleware_next (ALLOWED_ORIGINS w) (origin req) new_response) as Hn.
  destruct (security_middleware _ _ _ _) as [r1 n1]. cbn [snd] in Hn. subst n1.
  by rewrite Hok.
Qed.

(** The request branch and what follows it, for a handler called on a
    connected session with a response object of its own. *)
Lemma post_request_answered fuel rid sid s body w :
  sid <> EmptyString ->
  sessions w !! sid = Some s ->
  _onmessage (transport s) = true ->
  _currentResponse (transport s) <> Some rid ->
  get_response rid (heap w) = new_response ->
  route body = Ok RRequest ->
  exists w1 s1,
    post_mcp fuel rid (Some sid) body w = Ok w1 /\
    sessions w1 !! sid = Some s1 /\
    (exists tl,
       trace (heap w1) =
         trace (heap w) ++ OInstall (_sessionId (transport s)) rid
                        :: ODeliver (_sessionId (transport s)) body :: tl /\
       installs tl = 0) /\
    get_response rid (heap w1) = new_response /\
    match snd (engine_onmessage (server s) body) with
    | [] =>
        _pendingRequestHandler (transport s1) = Some rid /\
        promises (heap w1) !! rid = Some Pending
    | m :: _ => promises (heap w1) !! rid = Some (Fulfilled m)
    end /\
    (forall w2 s2 m,
       sessions w2 !! sid = Some s2 ->
       _pendingRequestHandler (transport s2) = Some rid ->
       promises (heap w2) !! rid = Some Pending ->
       get_response rid (heap w2) = new_response ->
       get_response rid (heap (resume rid (engine_send sid m w2))) =
         mkResponse 200 [] true [JSON_stringify m] true) /\
    (forall w2 m,
       promises (heap w2) !! rid = Some (Fulfilled m) ->
       get_response rid (heap w2) = new_response ->
       get_response rid (heap (resume rid w2)) =
         mkResponse 200 [] true [JSON_stringify m] true).
Proof.
  intros Hne Hs Hon Hsink Hfresh Hroute.
  rewrite (post_mcp_known fuel rid sid s) by done. rewrite Hroute. cbn [bind].
  destruct (post_request_spec rid sid s body w Hon Hsink)
    as (s1 & Hs1 & _ & _ & Hres & Hcase).
  exists (post_request rid sid s body w), s1.
  split; [done |]. split; [by rewrite Hs1, lookup_insert_eq |].
  split.
  { destruct (snd (engine_onmessage (server s) body)) as [|m outs].
    - destruct Hcase as (_ & _ & ->). by exists [].
    - destruct Hcase as (_ & _ & ->). by exists [OResolve rid m]. }
  split; [by rewrite Hres |].
  split.
  { destruct (snd (engine_onmessage (server s) body)); tauto. }
  split.
  - intros w2 s2 m Hs2 Hslot Hp Hfresh2.
    destruct (engine_send_to_responder sid s2 rid m w2 Hs2 Hslot Hp)
      as (Hful & Hresp & _).
    destruct (resume_fulfilled rid m _ Hful) as (-> & _).
    unfold get_response in *. rewrite Hresp, Hfresh2. reflexivity.
  - intros w2 m Hful Hfresh2.
    destruct (resume_fulfilled rid m _ Hful) as (-> & _).
    rewrite Hfresh2. reflexivity.
Qed.
(** C1, as the code has it. A POST on a known session whose body the
    handler routes as a request gets one pending request handler,
    installed before the body is delivered, and the handler then waits
    without replying. The first message the engine sends while that
    handler is still installed, be it from inside the delivery or later,
    and whatever its [id], becomes the reply: status 200 and the JSON
    encoding of the message as body. *)
Theorem request_answered_by_next_outbound_message fuel (req : HttpRequest) sid s w :
  reachable JSON_stringify uuidv4 Engine createMcpServer engine_onmessage w ->
  verb req = POST ->
  cors_origin (ALLOWED_ORIGINS w) (origin req) = true ->
  mcp_session_id req = Some sid ->
  sid <> EmptyString ->
  sessions w !! sid = Some s ->
  route (body req) = Ok RRequest ->
  exists w1 s1,
    serve fuel req w = Ok w1 /\
    sessions w1 !! sid = Some s1 /\
    (exists tl,
       trace (heap w1) =
         trace (heap w) ++ OInstall (_sessionId (transport s)) (next_req w)
                        :: ODeliver (_sessionId (transport s)) (body req) :: tl /\
       installs tl = 0) /\
    get_response (next_req w) (heap w1) = new_response /\
    match snd (engine_onmessage (server s) (body req)) with
    | [] =>
        _pendingRequestHandler (transport s1) = Some (next_req w) /\
        promises (heap w1) !! next_req w = Some Pending
    | m :: _ => promises (heap w1) !! next_req w = Some (Fulfilled m)
    end /\
    (forall w2 s2 m,
       sessions w2 !! sid = Some s2 ->
       _pendingRequestHandler (transport s2) = Some (next_req w) ->
       promises (heap w2) !! next_req w = Some Pending ->
       get_response (next_req w) (heap w2) = new_response ->
       get_response (next_req w) (heap (resume (next_req w) (engine_send sid m w2))) =
         mkResponse 200 [] true [JSON_stringify m] true) /\
    (forall w2 m,
       promises (heap w2) !! next_req w = Some (Fulfilled m) ->
       get_response (next_req w) (heap w2) = new_response ->
       get_response (next_req w) (heap (resume (next_req w) w2)) =
         mkResponse 200 [] true [JSON_stringify m] true).
Proof.
  intros Hreach Hverb Horigin Hsid Hne Hs Hroute.
  apply reachable_wf in Hreach. destruct (Hreach sid s Hs) as [Hon Hsink].
  rewrite serve_allowed, Hverb, Hsid by done.
  apply (post_request_answered fuel (next_req w) sid s (body req) (arrive w));
    try done.
  - intros Hr. apply Hsink in Hr. lia.
  - unfold arrive. cbn [heap]. by rewrite get_response_update.
Qed.


(** ** The origin check *)

Lemma split_comma_nonempty str : split_comma str <> [].
Proof.
  destruct str as [|c rest]; cbn; [done |].
  destruct (Ascii.eqb c ","%char); [done |].
  by destruct (split_comma rest).
Qed.

Lemma includes_false l o : includes l o = false <-> o ∉ l.
Proof.
  unfold includes. induction l as [|x l IH]; cbn.
  - split; [intros _; apply not_elem_of_nil | done].
  - rewrite orb_false_iff, IH, not_elem_of_cons.
    destruct (String.eqb_spec o x); split; intros [? ?]; done.
Qed.

(** C8, as the code has it. When [ALLOWED_ORIGINS] is set and not
    empty, a request whose non-empty [Origin] is none of its
    comma-separated items is answered 403 with the JSON-RPC error of
    code -32000 and reaches no endpoint handler: the registry, the
    log, the promises and the other responses are as before. A request
    without [Origin] header always passes the check. *)
Theorem origin_outside_allow_list_is_forbidden fuel (allow o : string)
    (req : HttpRequest) w :
  ALLOWED_ORIGINS w = Some allow ->
  allow <> EmptyString ->
  origin req = Some o ->
  o <> EmptyString ->
  o ∉ split_comma allow ->
  (exists w',
     serve fuel req w = Ok w' /\
     get_response (next_req w) (heap w') =
       mkResponse 403 [] true [JSON_stringify forbidden_body] true /\
     (do e <- get_prop forbidden_body "error"; get_prop e "code") = Ok (JNum (-32000)) /\
     sessions w' = sessions w /\
     trace (heap w') = trace (heap w) /\
     promises (heap w') = promises (heap w) /\
     uuid_count (heap w') = uuid_count (heap w) /\
     forall r, r <> next_req w -> get_response r (heap w') = get_response r (heap w)) /\
  (forall env r, security_middleware JSON_stringify env None r = (r, true)).
Proof.
  intros Henv Hallow Ho Hne Hnot. split; [| done].
  unfold serve, security_middleware. rewrite Henv, Ho, header_value_some by done.
  unfold allowedOrigins.
  destruct (String.eqb allow EmptyString) eqn:E; [by apply String.eqb_eq in E |].
  apply includes_false in Hnot. rewrite Hnot.
  pose proof (split_comma_nonempty allow) as Hsplit.
  destruct (split_comma allow) as [|x l]; [done |]. cbn.
  eexists. split; [reflexivity |]. unfold reply. cbn.
  rewrite get_response_update. do 6 (split; [done |]).
  intros r Hr. by rewrite !get_response_update_ne.
Qed.

(** * Further properties of the HTTP layer *)

(** ** The classification of a body *)

Lemma route_non_object body :
  (forall ms, body <> JObj ms) -> route body = Ok RInvalid.
Proof.
  intros Hno. destruct body as [| |b|n|str|xs|ms]; try reflexivity.
  - by destruct b.
  - by destruct n.
  - by destruct str.
  - by destruct (Hno ms).
Qed.

Lemma classic_object body : (exists ms, body = JObj ms) \/ (forall ms, body <> JObj ms).
Proof. destruct body; eauto; right; discriminate. Qed.

(** X1. The branch POST /mcp takes on a known session, for every body:
    the tests never throw; the request branch is taken by the objects
    with a string [method] and an [id] that carry neither [result] nor
    [error]; the 202 branch by the objects with a string [method] and no
    [id], or with an [id] and a [result] or [error]; everything else,
    that is every value that is not an object and every object whose
    [method] is not a string and which lacks an [id] or lacks both
    [result] and [error], is refused as invalid. *)
Theorem route_decision_table (body : jsval) :
  (exists r, route body = Ok r) /\
  (route body = Ok RRequest <->
   exists ms, body = JObj ms /\
     is_string (member "method" ms) = true /\ defined (member "id" ms) = true /\
     defined (member "result" ms) = false /\ defined (member "error" ms) = false) /\
  (route body = Ok RAccepted <->
   exists ms, body = JObj ms /\
     (is_string (member "method" ms) = true /\ defined (member "id" ms) = false \/
      defined (member "result" ms) || defined (member "error" ms) = true /\
      defined (member "id" ms) = true)) /\
  (route body = Ok RInvalid <->
   (forall ms, body <> JObj ms) \/
   exists ms, body = JObj ms /\
     is_string (member "method" ms) = false /\
     (defined (member "id" ms) = false \/
      defined (member "result" ms) = false /\ defined (member "error" ms) = false)).
Proof.
  destruct (classic_object body) as [[ms ->]|Hno].
  - rewrite route_obj. unfold defined.
    destruct (is_string (member "method" ms)) eqn:Hm,
      (is_undefined (member "id" ms)) eqn:Hi,
      (is_undefined (member "result" ms)) eqn:Hr,
      (is_undefined (member "error" ms)) eqn:He;
      cbn; (split; [eauto |]); (split; [| split]); split;
      try (intros H; discriminate H);
      try (intros _; try right; exists ms; rewrite ?Hm, ?Hi, ?Hr, ?He; cbn; tauto);
      try (intros [Hn|(ms' & [= <-] & H)];
           [by destruct (Hn ms) | rewrite ?Hm, ?Hi, ?Hr, ?He in H; cbn in H]);
      try (intros (ms' & [= <-] & H); rewrite ?Hm, ?Hi, ?Hr, ?He in H; cbn in H);
      try reflexivity;
      intuition discriminate.
  - rewrite route_non_object by done.
    split; [eauto |]. split; [| split].
    + split; [discriminate | intros (ms & -> & _); by destruct (Hno ms)].
    + split; [discriminate | intros (ms & -> & _); by destruct (Hno ms)].
    + split; [by left | done].
Qed.

(** ** The allow-list and the two origin checks *)

Lemma split_comma_join str : String.concat "," (split_comma str) = str.
Proof.
  induction str as [|c rest IH]; [reflexivity |].
  cbn [split_comma]. pose proof (split_comma_nonempty rest) as Hne.
  destruct (Ascii.eqb_spec c ","%char) as [->|Hc];
    destruct (split_comma rest) as [|x l] eqn:E; try done.
  - change (String.concat "," (EmptyString :: x :: l))
      with (EmptyString +:+ "," +:+ String.concat "," (x :: l)).
    by rewrite IH.
  - destruct l as [|y l].
    + cbn in IH |- *. by rewrite IH.
    + change (String.concat "," (String c x :: y :: l))
        with (String c (x +:+ "," +:+ String.concat "," (y :: l))).
      change (String.concat "," (x :: y :: l))
        with (x +:+ "," +:+ String.concat "," (y :: l)) in IH.
      by rewrite IH.
Qed.

Lemma split_comma_comma_free str :
  Forall (fun piece => comma_free piece = true) (split_comma str).
Proof.
  induction str as [|c rest IH]; [by repeat constructor |].
  cbn [split_comma]. destruct (Ascii.eqb c ","%char) eqn:Hc.
  - by constructor.
  - destruct (split_comma rest) as [|x l]; [by repeat constructor; cbn; rewrite Hc |].
    apply Forall_cons in IH as [Hx Hl]. constructor; [| done].
    cbn. by rewrite Hc, Hx.
Qed.

(** X2. The allow-list is the variable cut at every comma and nowhere
    else, with nothing trimmed: joining the items with commas gives the
    variable back, no item contains a comma, and the list is empty
    exactly when the variable is unset or empty. *)
Theorem allowedOrigins_splits_at_commas (env : option string) :
  Forall (fun item => comma_free item = true) (allowedOrigins env) /\
  (allowedOrigins env = [] <-> env = None \/ env = Some EmptyString) /\
  (forall allow, env = Some allow -> String.concat "," (allowedOrigins env) = allow).
Proof.
  unfold allowedOrigins. destruct env as [allow|].
  - destruct (String.eqb_spec allow EmptyString) as [->|Hne].
    + split; [constructor |]. split; [by split; [right |] |]. by intros ? [= <-].
    + split; [apply split_comma_comma_free |]. split.
      * split; [intros H; by destruct (split_comma_nonempty allow) |].
        intros [H|[= H]]; [discriminate H | done].
      * intros ? [= <-]. apply split_comma_join.
  - split; [constructor |]. split; [by split; [left |] |]. discriminate.
Qed.

(** X3. What the security middleware decides: it stops a request,
    leaving it unanswered by any handler, exactly when the request has
    a non-empty [Origin], [ALLOWED_ORIGINS] is set and not empty, and the
    origin is none of its items; in every other case it calls [next]
    and leaves the response as it found it. *)
Theorem security_middleware_decision (env origin : option string) (r : HttpResponse) :
  (snd (security_middleware JSON_stringify env origin r) = false <->
   exists o allow,
     origin = Some o /\ o <> EmptyString /\
     env = Some allow /\ allow <> EmptyString /\ o ∉ split_comma allow) /\
  (snd (security_middleware JSON_stringify env origin r) = true ->
   fst (security_middleware JSON_stringify env origin r) = r) /\
  (snd (security_middleware JSON_stringify env origin r) = false ->
   fst (security_middleware JSON_stringify env origin r) =
     res_json JSON_stringify forbidden_body (res_status 403 r)).
Proof.
  unfold security_middleware, header_value.
  destruct origin as [o|]; cbn.
  2: { split; [| done]. split; [discriminate | by intros (? & ? & [=] & _)]. }
  destruct (String.eqb_spec o EmptyString) as [->|Ho]; cbn.
  { split; [| done]. split; [discriminate | by intros (? & ? & [= <-] & ? & _)]. }
  unfold allowedOrigins. destruct env as [allow|]; cbn.
  2: { split; [| done]. split; [discriminate | by intros (? & ? & _ & _ & [=] & _)]. }
  destruct (String.eqb_spec allow EmptyString) as [->|Ha]; cbn.
  { split; [| done]. split; [discriminate | by intros (? & ? & _ & _ & [= <-] & ? & _)]. }
  pose proof (split_comma_nonempty allow) as Hne.
  destruct (split_comma allow) as [|x l] eqn:E; [done |]. cbn [length Nat.ltb Nat.leb andb].
  destruct (includes (x :: l) o) eqn:Hin; cbn.
  - split; [| done]. split; [discriminate |].
    intros (o' & allow' & [= <-] & _ & [= <-] & _ & Hnot).
    apply includes_false in Hnot. rewrite E in Hnot. congruence.
  - split; [| done]. split; [| done]. intros _.
    exists o, allow. rewrite E. repeat split; try done. by apply includes_false.
Qed.

(** The middleware chain in one equation. *)
Lemma serve_cases fuel (req : HttpRequest) w :
  serve fuel req w =
    if cors_origin (ALLOWED_ORIGINS w) (origin req)
    then match verb req with
         | GET => get_mcp JSON_stringify uuidv4 Engine fuel (next_req w)
                    (mcp_session_id req) (arrive w)
         | POST => post_mcp fuel (next_req w) (mcp_session_id req) (body req) (arrive w)
         end
    else Ok (reply (next_req w)
               (fun _ => res_json JSON_stringify forbidden_body (res_status 403 new_response))
               (arrive w)).
Proof.
  destruct (cors_origin (ALLOWED_ORIGINS w) (origin req)) eqn:Hok.
  - by apply serve_allowed.
  - unfold serve.
    pose proof (security_middleware_next (ALLOWED_ORIGINS w) (origin req) new_response) as Hn.
    rewrite Hok in Hn. unfold security_middleware in *.
    destruct (header_value (origin req)); [| discriminate Hn].
    destruct (_ && _); [| discriminate Hn]. done.
Qed.

(** X4. The origin callback given to [cors] accepts exactly the
    requests the security middleware lets through; since the middleware
    runs first, the error branch of the callback is never taken, and a
    request is either answered 403 by the middleware or handed to its
    endpoint handler. *)
Theorem cors_never_refuses_after_the_middleware fuel (req : HttpRequest) w :
  cors_origin (ALLOWED_ORIGINS w) (origin req) =
    snd (security_middleware JSON_stringify (ALLOWED_ORIGINS w) (origin req) new_response) /\
  serve fuel req w =
    if cors_origin (ALLOWED_ORIGINS w) (origin req)
    then match verb req with
         | GET => get_mcp JSON_stringify uuidv4 Engine fuel (next_req w)
                    (mcp_session_id req) (arrive w)
         | POST => post_mcp fuel (next_req w) (mcp_session_id req) (body req) (arrive w)
         end
    else Ok (reply (next_req w)
               (fun _ => res_json JSON_stringify forbidden_body (res_status 403 new_response))
               (arrive w)).
Proof.
  split; [by rewrite security_middleware_next | apply serve_cases].
Qed.

(** ** The error replies of the two handlers *)

(** X5. GET /mcp without a usable session: with the header absent or
    empty the reply is 400 and the registry is not even consulted; with
    an identifier the registry does not hold it is 404. Either way the
    text goes out on the request's own response, which is ended, and
    nothing else changes: no session, no promise, no other response, no
    identifier drawn. *)
Theorem get_refused fuel rid sessionId w :
  (header_value sessionId = None ->
   get_mcp JSON_stringify uuidv4 Engine fuel rid sessionId w =
     Ok (reply rid (fun r => res_send "Missing MCP-Session-Id header" (res_status 400 r)) w)) /\
  (forall sid, header_value sessionId = Some sid -> sessions w !! sid = None ->
   get_mcp JSON_stringify uuidv4 Engine fuel rid sessionId w =
     Ok (reply rid (fun r => res_send "Session not found" (res_status 404 r)) w)) /\
  (forall text code,
     let w' := reply rid (fun r => res_send text (res_status code r)) w in
     sessions w' = sessions w /\
     promises (heap w') = promises (heap w) /\
     trace (heap w') = trace (heap w) /\
     uuid_count (heap w') = uuid_count (heap w) /\
     statusCode (get_response rid (heap w')) = code /\
     writableEnded (get_response rid (heap w')) = true /\
     chunks (get_response rid (heap w')) = chunks (get_response rid (heap w)) ++ [text] /\
     forall r, r <> rid -> get_response r (heap w') = get_response r (heap w)).
Proof.
  split; [| split].
  - intros Hh. unfold get_mcp. by rewrite Hh.
  - intros sid Hh Hs. unfold get_mcp. by rewrite Hh, Hs.
  - intros text code w'.
    destruct (reply_spec rid (fun r => res_send text (res_status code r)) w)
      as (H1 & H2 & H3 & H4 & H5 & H6).
    subst w'. rewrite H1, H2, H3, H4, H5. done.
Qed.

(** X6. On a known session a body that is neither notification,
    response nor request is answered 400 "Invalid JSON-RPC message"; it
    is not delivered to the engine and no state other than the
    request's own response changes. *)
Theorem invalid_message_refused fuel rid sid s body w :
  sid <> EmptyString ->
  sessions w !! sid = Some s ->
  route body = Ok RInvalid ->
  exists w',
    post_mcp fuel rid (Some sid) body w = Ok w' /\
    sessions w' = sessions w /\
    trace (heap w') = trace (heap w) /\
    promises (heap w') = promises (heap w) /\
    statusCode (get_response rid (heap w')) = 400%Z /\
    writableEnded (get_response rid (heap w')) = true /\
    chunks (get_response rid (heap w')) =
      chunks (get_response rid (heap w)) ++ ["Invalid JSON-RPC message"] /\
    forall r, r <> rid -> get_response r (heap w') = get_response r (heap w).
Proof.
  intros Hne Hs Hroute.
  rewrite (post_mcp_known fuel rid sid s) by done. rewrite Hroute. cbn [bind].
  eexists. split; [reflexivity |].
  destruct (reply_spec rid
              (fun r => res_send "Invalid JSON-RPC message" (res_status 400 r)) w)
    as (H1 & H2 & H3 & _ & H5 & H6).
  rewrite H1, H2, H3, H5. done.
Qed.

(** ** Notifications and responses *)

Lemma deliveries_app tr1 tr2 : deliveries (tr1 ++ tr2) = deliveries tr1 + deliveries tr2.
Proof. induction tr1 as [|o tr1 IH]; cbn; [done | rewrite IH; lia]. Qed.

Lemma send_deliveries t msg h :
  deliveries (trace (snd (send t msg h))) = deliveries (trace h).
Proof.
  unfold send. destruct (_pendingRequestHandler t) as [p|]; cbn.
  { rewrite deliveries_app. cbn. lia. }
  destruct (sink_open t h); [| done].
  by destruct (_currentResponse t).
Qed.

Lemma send_all_deliveries outs : forall t h,
  deliveries (trace (snd (send_all outs t h))) = deliveries (trace h).
Proof.
  induction outs as [|m outs IH]; intros t h; [done |].
  by rewrite send_all_cons, IH, send_deliveries.
Qed.

(** What [send_all] writes on a response that is not the sink: nothing. *)
Lemma send_all_elsewhere outs : forall t h r,
  _currentResponse t <> Some r ->
  get_response r (snd (send_all outs t h)) = get_response r h.
Proof.
  induction outs as [|m outs IH]; intros t h r Hr; [done |].
  rewrite send_all_cons.
  destruct (send_frame t m h) as [(Hcur & _) _].
  rewrite IH by congruence.
  unfold send. destruct (_pendingRequestHandler t) as [p|]; [done |].
  destruct (sink_open t h); [| done].
  destruct (_currentResponse t) as [r0|]; [| done].
  cbn. rewrite get_response_update_ne by congruence. done.
Qed.

(** A [send] settles promises but neither creates nor forgets one. *)
Lemma send_promise_keys t msg h p :
  promises (snd (send t msg h)) !! p = None <-> promises h !! p = None.
Proof.
  unfold send. destruct (_pendingRequestHandler t) as [q|]; cbn.
  { rewrite lookup_alter. case_decide; [| done]. subst.
    by destruct (promises h !! p). }
  destruct (sink_open t h); [| done].
  by destruct (_currentResponse t).
Qed.

Lemma send_all_promise_keys outs : forall t h p,
  promises (snd (send_all outs t h)) !! p = None <-> promises h !! p = None.
Proof.
  induction outs as [|m outs IH]; intros t h p; [done |].
  by rewrite send_all_cons, IH, send_promise_keys.
Qed.

(** X7. In every state the server can reach, a POST on a known session
    whose body is routed as notification or response is handed to the
    engine exactly once and answered at once with an empty 202; no
    pending request handler is installed for it and no promise
    created. *)
Theorem notification_or_response_accepted fuel (req : HttpRequest) sid s w :
  reachable JSON_stringify uuidv4 Engine createMcpServer engine_onmessage w ->
  verb req = POST ->
  cors_origin (ALLOWED_ORIGINS w) (origin req) = true ->
  mcp_session_id req = Some sid ->
  sid <> EmptyString ->
  sessions w !! sid = Some s ->
  route (body req) = Ok RAccepted ->
  exists w1 s1,
    serve fuel req w = Ok w1 /\
    sessions w1 = <[sid := s1]> (sessions w) /\
    server s1 = fst (engine_onmessage (server s) (body req)) /\
    get_response (next_req w) (heap w1) = mkResponse 202 [] true [] true /\
    deliveries (trace (heap w1)) = S (deliveries (trace (heap w))) /\
    installs (trace (heap w1)) = installs (trace (heap w)) /\
    (forall p, promises (heap w1) !! p = None <-> promises (heap w) !! p = None).
Proof.
  intros Hreach Hverb Horigin Hsid Hne Hs Hroute.
  apply reachable_wf in Hreach. destruct (Hreach sid s Hs) as [Hon Hsink].
  rewrite serve_allowed, Hverb, Hsid by done.
  rewrite (post_mcp_known fuel (next_req w) sid s) by done.
  rewrite Hroute. cbn [bind]. unfold post_accepted.
  rewrite handleMessage_connected by done.
  eexists _, _. split; [reflexivity |].
  cbn [with_session sessions heap server]. do 2 (split; [done |]).
  rewrite get_response_update.
  rewrite send_all_elsewhere by (intros Hr; apply Hsink in Hr; lia).
  split; [by rewrite get_response_log; unfold arrive; cbn [heap]; rewrite get_response_update |].
  cbn [trace update_response promises].
  rewrite send_all_deliveries, send_all_installs. cbn.
  rewrite deliveries_app, installs_app. cbn.
  split; [lia |]. split; [lia |].
  intros p.
  match goal with
  | |- context [send_all ?outs ?t1 ?h1] =>
      pose proof (send_all_promise_keys outs t1 h1 p) as Hk
  end.
  exact Hk.
Qed.

(** ** The pending request handler is used once *)


(** ** The registry only grows *)

Lemma dom_with_known sid s s' h w :
  sessions w !! sid = Some s ->
  dom (sessions (with_session sid s' h w)) = dom (sessions w).
Proof. intros Hs. cbn. apply dom_insert_lookup_L. eauto. Qed.

(** X9. No event removes a session: every identifier of the registry
    is still in it after any step; and the only event that adds one is
    a POST without session header whose body satisfies
    [isInitializeRequest]. *)
Theorem registry_only_grows fuel w ev w' :
  step JSON_stringify uuidv4 Engine createMcpServer engine_onmessage fuel w ev = Ok w' ->
  dom (sessions w) ⊆ dom (sessions w') /\
  (dom (sessions w') <> dom (sessions w) ->
   exists req, ev = Http req /\ verb req = POST /\
     header_value (mcp_session_id req) = None /\
     holds (isInitializeRequest (body req)) = Ok true).
Proof.
  destruct ev as [req|sid msg|rid]; cbn [step].
  - rewrite serve_cases.
    destruct (cors_origin _ _); [| intros [= <-]; by split].
    destruct (verb req) eqn:Hverb.
    + unfold get_mcp.
      destruct (header_value (mcp_session_id req)) as [sid|]; [| intros [= <-]; by split].
      destruct (sessions (arrive w) !! sid) as [s|] eqn:Hs; [| intros [= <-]; by split].
      cbn [draw_uuid].
      destruct (attachResponse _ _ _ _ _ _) as [[t' h4]| |]; cbn [bind]; try discriminate.
      intros [= <-]. rewrite (dom_with_known sid s) by done. by split.
    + unfold post_mcp.
      destruct (header_value (mcp_session_id req)) as [sid|] eqn:Hh.
      * destruct (sessions (arrive w) !! sid) as [s|] eqn:Hs; [| intros [= <-]; by split].
        destruct (holds (isNotification (body req) ||| isResponse (body req)))
          as [[]| |]; cbn [bind]; try discriminate.
        { intros [= <-]. unfold post_accepted.
          destruct (handleMessage s (body req) _) as [s' h'].
          rewrite (dom_with_known sid s) by done. by split. }
        destruct (holds (isRequest (body req))) as [[]| |]; cbn [bind]; try discriminate;
          [| intros [= <-]; by split].
        intros [= <-]. unfold post_request, setPendingRequestHandler.
        destruct (handleMessage _ (body req) _) as [s' h'].
        rewrite (dom_with_known sid s) by done. by split.
      * destruct (holds (isInitializeRequest (body req))) as [[]| |] eqn:Hinit;
          cbn [bind]; try discriminate; [| intros [= <-]; by split].
        intros Hrun.
        destruct (post_initialize_spec fuel (next_req w) (body req) (arrive w))
          as (w1 & s & Hrun' & Hs & _).
        rewrite Hrun' in Hrun. injection Hrun as <-.
        split; [rewrite Hs; apply dom_insert_subseteq | eauto 10].
  - intros [= <-]. unfold engine_send.
    destruct (sessions w !! sid) as [s|] eqn:Hs; [| by split].
    destruct (send (transport s) msg (heap w)) as [t' h'].
    rewrite (dom_with_known sid s) by done. by split.
  - intros [= <-]. unfold resume.
    destruct (promises (heap w) !! rid) as [[]|]; by split.
Qed.

(** ** Good order is kept *)

Lemma tidy_keep n n' h h' sid s :
  tidy n h sid s -> n <= n' -> undisturbed n h h' -> tidy n' h' sid s.
Proof.
  intros (Hid & Hon & Hq & r & Hr & Hlt & He & Hp) Hle Hkeep.
  destruct (Hkeep r Hlt) as [He' Hp'].
  repeat split; try done. exists r. repeat split; try done; [lia | congruence | by apply Hp'].
Qed.

Lemma undisturbed_refl n h : undisturbed n h h.
Proof. by intros r _. Qed.

Lemma undisturbed_trans n h1 h2 h3 :
  undisturbed n h1 h2 -> undisturbed n h2 h3 -> undisturbed n h1 h3.
Proof.
  intros H12 H23 r Hr. destruct (H12 r Hr) as [? ?], (H23 r Hr) as [? ?].
  split; [congruence | tauto].
Qed.

Lemma undisturbed_send_all n outs t h :
  undisturbed n h (snd (send_all outs t h)).
Proof.
  intros r _. destruct (send_all_frame outs t h) as [_ He].
  destruct (He r) as (_ & _ & -> & _). split; [done | apply send_all_promise_keys].
Qed.

Lemma undisturbed_update n rid f h :
  n <= rid -> undisturbed n h (update_response rid f h).
Proof.
  intros Hle r Hr. rewrite get_response_update_ne by lia. done.
Qed.

(** With a live sink nothing is ever queued. *)
Lemma send_live t msg h :
  sink_open t h = true ->
  _messageQueue (fst (send t msg h)) = _messageQueue t /\
  sink_open (fst (send t msg h)) (snd (send t msg h)) = true.
Proof.
  intros Hopen. destruct (send_frame t msg h) as [(Hcur & _) He].
  split.
  - unfold send. destruct (_pendingRequestHandler t); [by destruct t |].
    rewrite Hopen. by destruct (_currentResponse t).
  - unfold sink_open in *. rewrite Hcur.
    destruct (_currentResponse t) as [r|]; [| done].
    destruct (He r) as (_ & _ & -> & _). done.
Qed.

Lemma send_all_live outs : forall t h,
  sink_open t h = true ->
  _messageQueue (fst (send_all outs t h)) = _messageQueue t.
Proof.
  induction outs as [|m outs IH]; intros t h Hopen; [done |].
  rewrite send_all_cons. destruct (send_live t m h Hopen) as [Hq Hopen'].
  by rewrite IH.
Qed.

(** A transport in good order stays so through the sends of its engine. *)
Lemma tidy_send_all n h sid s (e' : Engine) outs :
  tidy n h sid s ->
  tidy n (snd (send_all outs (transport s) h)) sid
    (mkSession e' (fst (send_all outs (transport s) h))).
Proof.
  intros (Hid & Hon & Hq & r & Hr & Hlt & He & Hp).
  destruct (send_all_frame outs (transport s) h) as [(Hcur & Hid' & Hon' & _) Hext].
  assert (sink_open (transport s) h = true) as Hopen
    by (unfold sink_open; by rewrite Hr, He).
  repeat split; cbn [transport]; try congruence.
  - by rewrite send_all_live.
  - exists r. repeat split; try congruence.
    + destruct (Hext r) as (_ & _ & -> & _). done.
    + by apply send_all_promise_keys.
Qed.

Lemma arrive_ready w : sound w -> ready (next_req w) (arrive w).
Proof.
  intros [Hses Hprom]. unfold ready, arrive. cbn [sessions heap next_req].
  assert (undisturbed (next_req w) (heap w)
            (update_response (next_req w) (fun _ => new_response) (heap w))) as Hkeep
    by (by apply undisturbed_update).
  split; [| split; [| split]].
  - intros sid s Hs. eapply tidy_keep; [by apply Hses | done | done].
  - intros p Hp. destruct (Hprom p Hp) as [Hlt He]. split; [done |].
    destruct (Hkeep p Hlt) as [-> _]. done.
  - by rewrite get_response_update.
  - done.
Qed.

(** What a handler must leave behind for the process to be in good
    order after it. *)
Lemma sound_after rid w0 w' :
  ready rid w0 ->
  next_req w' = S rid ->
  undisturbed rid (heap w0) (heap w') ->
  (forall sid s, sessions w' !! sid = Some s ->
     sessions w0 !! sid = Some s \/ tidy (S rid) (heap w') sid s) ->
  (forall p, is_Some (promises (heap w') !! p) ->
     is_Some (promises (heap w0) !! p) \/
     p = rid /\ writableEnded (get_response rid (heap w')) = false) ->
  sound w'.
Proof.
  intros (Hses & Hprom & _ & _) Hnext Hkeep Hses' Hprom'. split; rewrite Hnext.
  - intros sid s Hs. destruct (Hses' sid s Hs) as [Hold|Hnew]; [| done].
    eapply tidy_keep; [by apply Hses | lia | done].
  - intros p Hp. destruct (Hprom' p Hp) as [Hold|[-> He]]; [| split; [lia | done]].
    destruct (Hprom p Hold) as [Hlt He]. split; [lia |].
    destruct (Hkeep p Hlt) as [-> _]. done.
Qed.

Lemma undisturbed_same n h h' :
  responses h' = responses h -> promises h' = promises h -> undisturbed n h h'.
Proof. intros Hr Hp r _. unfold get_response. by rewrite Hr, Hp. Qed.

Lemma undisturbed_new_promise n rid h :
  n <= rid -> undisturbed n h (new_promise rid h).
Proof.
  intros Hle r Hr. split; [done |]. cbn. rewrite lookup_insert_ne by lia. done.
Qed.

Lemma open_stream_other rid sessionId h r :
  r <> rid ->
  get_response r (open_stream uuidv4 rid sessionId h) = get_response r h.
Proof.
  intros Hne. unfold open_stream. cbn [draw_uuid].
  rewrite get_response_update_ne by done.
  match goal with
  | |- context [get_response r (mkHeap (responses ?h1) _ _ _)] =>
      change (get_response r (mkHeap (responses h1) _ _ _)) with (get_response r h1)
  end.
  by rewrite get_response_update_ne.
Qed.

Lemma open_stream_promises rid sessionId h :
  promises (open_stream uuidv4 rid sessionId h) = promises h.
Proof. reflexivity. Qed.

Lemma reply_sound rid f w0 : ready rid w0 -> sound (reply rid f w0).
Proof.
  intros Hready. pose proof Hready as (_ & _ & _ & Hnext).
  apply (sound_after rid w0); try done.
  - by apply undisturbed_update.
  - intros sid s Hs. by left.
  - intros p Hp. by left.
Qed.

Lemma is_Some_keys (m1 m2 : gmap nat PromiseState) p :
  (m2 !! p = None <-> m1 !! p = None) -> is_Some (m2 !! p) -> is_Some (m1 !! p).
Proof.
  intros Hk Hs. destruct (m1 !! p) eqn:E; [eauto |].
  destruct Hk as [_ Hk]. rewrite (Hk eq_refl) in Hs. by destruct Hs.
Qed.

Lemma post_accepted_sound rid sid s body w0 :
  ready rid w0 -> sessions w0 !! sid = Some s ->
  sound (post_accepted rid sid s body w0).
Proof.
  intros Hready Hs. pose proof Hready as (Hses & Hprom & _ & Hnext).
  pose proof (Hses sid s Hs) as Htidy. pose proof Htidy as (_ & Hon & _).
  unfold post_accepted. rewrite handleMessage_connected by done.
  set (h1 := log (ODeliver (_sessionId (transport s)) body) (heap w0)).
  set (outs := snd (engine_onmessage (server s) body)).
  assert (undisturbed rid (heap w0) (snd (send_all outs (transport s) h1))) as Hkeep.
  { eapply undisturbed_trans; [| apply undisturbed_send_all].
    by apply undisturbed_same. }
  apply (sound_after rid w0); try done; cbn [with_session sessions heap].
  - eapply undisturbed_trans; [exact Hkeep | by apply undisturbed_update].
  - intros sid0 s0. rewrite lookup_insert. case_decide; [subst sid0 | by left].
    intros [= <-]. right.
    eapply (tidy_keep rid (S rid)); [apply tidy_send_all | lia | by apply undisturbed_update].
    eapply (tidy_keep rid rid); [exact Htidy | done | by apply undisturbed_same].
  - intros p Hp. left. revert Hp. apply is_Some_keys.
    cbn [update_response promises]. by rewrite send_all_promise_keys.
Qed.

Lemma post_request_sound rid sid s body w0 :
  ready rid w0 -> sessions w0 !! sid = Some s ->
  sound (post_request rid sid s body w0).
Proof.
  intros Hready Hs. pose proof Hready as (Hses & Hprom & Hfresh & Hnext).
  pose proof (Hses sid s Hs) as Htidy.
  pose proof Htidy as (Hid & Hon & Hq & r & Hr & Hlt & He & Hp).
  unfold post_request, setPendingRequestHandler.
  rewrite handleMessage_connected by (by destruct s as [e []]).
  cbn [transport server].
  set (t1 := set_pendingSlot (Some rid) (transport s)).
  match goal with
  | |- context [send_all ?o t1 ?hx] => set (outs := o); set (h2 := hx)
  end.
  assert (undisturbed rid (heap w0) h2) as Hkeep2.
  { eapply undisturbed_trans; [by apply (undisturbed_new_promise rid rid) |].
    by apply undisturbed_same. }
  assert (tidy rid h2 sid (mkSession (server s) t1)) as Htidy1.
  { eapply (tidy_keep rid rid); [| done | exact Hkeep2].
    repeat split; cbn [transport]; try (by destruct s as [e []]).
    exists r. repeat split; (done || by destruct s as [e []]). }
  apply (sound_after rid w0); try done; cbn [with_session sessions heap].
  - eapply undisturbed_trans; [exact Hkeep2 | apply undisturbed_send_all].
  - intros sid0 s0. rewrite lookup_insert. case_decide; [subst sid0 | by left].
    intros [= <-]. right.
    eapply (tidy_keep rid (S rid));
      [apply (tidy_send_all rid h2 sid (mkSession (server s) t1)) | lia |
       apply undisturbed_refl].
    exact Htidy1.
  - intros p Hsome.
    assert (is_Some (promises h2 !! p)) as H2
      by (revert Hsome; apply is_Some_keys; apply send_all_promise_keys).
    subst h2. cbn in H2. rewrite lookup_insert in H2. case_decide.
    + subst p. right. split; [done |].
      assert (_currentResponse t1 = Some r) as Hr1 by (by destruct s as [e []]).
      rewrite send_all_elsewhere by (rewrite Hr1; intros [= ->]; lia).
      cbn. change (writableEnded (get_response rid (heap w0)) = false).
      by rewrite Hfresh.
    + by left.
Qed.

Lemma post_initialize_sound fuel rid body w0 w' :
  ready rid w0 -> post_initialize fuel rid body w0 = Ok w' -> sound w'.
Proof.
  intros Hready. pose proof Hready as (Hses & Hprom & Hfresh & Hnext).
  unfold post_initialize. cbn [draw_uuid connect transport server].
  unfold attachResponse. rewrite flush_empty by done. cbn [bind].
  rewrite handleMessage_connected by done. cbn [transport server].
  set (sessionId := uuidv4 (uuid_count (heap w0))).
  set (t1 := set_currentResponse (Some rid) (set_callbacks (new_transport sessionId))).
  match goal with
  | |- context [send_all ?o t1 ?hx] => set (outs := o); set (h5 := hx)
  end.
  intros [= <-].
  assert (undisturbed rid (heap w0) h5) as Hkeep5.
  { intros r Hr. subst h5. rewrite get_response_log, open_stream_other by lia. done. }
  assert (tidy (S rid) h5 sessionId (mkSession createMcpServer t1)) as Htidy1.
  { repeat split. exists rid. repeat split; [lia | |].
    - subst h5. rewrite get_response_log, open_stream_response. cbn.
      change (writableEnded (get_response rid (heap w0)) = false). by rewrite Hfresh.
    - destruct (promises h5 !! rid) eqn:E; [| done].
      destruct (Hprom rid) as [Hlt _]; [by eexists | lia]. }
  apply (sound_after rid w0); try done; cbn [with_session sessions heap].
  - eapply undisturbed_trans; [exact Hkeep5 | apply undisturbed_send_all].
  - intros sid0 s0. rewrite lookup_insert. case_decide; [subst sid0 | by left].
    intros [= <-]. right.
    apply (tidy_send_all (S rid) h5 sessionId (mkSession createMcpServer t1)).
    exact Htidy1.
  - intros p Hsome. left. revert Hsome. apply is_Some_keys.
    by rewrite send_all_promise_keys.
Qed.

Lemma post_mcp_sound fuel rid sessionId body w0 w' :
  ready rid w0 -> post_mcp fuel rid sessionId body w0 = Ok w' -> sound w'.
Proof.
  intros Hready. unfold post_mcp.
  destruct (header_value sessionId) as [sid|].
  - destruct (sessions w0 !! sid) as [s|] eqn:Hs;
      [| intros [= <-]; by apply reply_sound].
    destruct (holds (isNotification body ||| isResponse body)) as [[]| |];
      cbn [bind]; try discriminate.
    { intros [= <-]. by apply post_accepted_sound. }
    destruct (holds (isRequest body)) as [[]| |]; cbn [bind]; try discriminate.
    + intros [= <-]. by apply post_request_sound.
    + intros [= <-]. by apply reply_sound.
  - destruct (holds (isInitializeRequest body)) as [[]| |]; cbn [bind]; try discriminate.
    + by apply post_initialize_sound.
    + intros [= <-]. by apply reply_sound.
Qed.

Lemma get_response_draw r h :
  get_response r (snd (draw_uuid uuidv4 h)) = get_response r h.
Proof. reflexivity. Qed.

(** GET /mcp on a session in good order: the queue is empty, the loop of
    [attachResponse] has nothing to do, whatever the fuel. *)
Lemma get_mcp_known fuel rid sessionId sid s w0 :
  header_value sessionId = Some sid ->
  sessions w0 !! sid = Some s ->
  _messageQueue (transport s) = [] ->
  get_mcp JSON_stringify uuidv4 Engine fuel rid sessionId w0 =
  Ok (with_session sid
        (mkSession (server s) (set_currentResponse (Some rid) (transport s)))
        (update_response rid
           (res_write (sse_event (uuidv4 (uuid_count (heap w0))) EmptyString))
           (snd (draw_uuid uuidv4
                   (update_response rid (res_writeHead 200 sse_headers) (heap w0)))))
        w0).
Proof.
  intros Hh Hs Hq. unfold get_mcp. rewrite Hh, Hs. cbn [draw_uuid].
  unfold attachResponse. rewrite flush_empty by (by destruct s as [e []]). done.
Qed.

Lemma get_mcp_sound fuel rid sessionId w0 w' :
  ready rid w0 ->
  get_mcp JSON_stringify uuidv4 Engine fuel rid sessionId w0 = Ok w' -> sound w'.
Proof.
  intros Hready. pose proof Hready as (Hses & Hprom & Hfresh & Hnext).
  destruct (header_value sessionId) as [sid|] eqn:Hh.
  2: { unfold get_mcp. rewrite Hh. intros [= <-]. by apply reply_sound. }
  destruct (sessions w0 !! sid) as [s|] eqn:Hs.
  2: { unfold get_mcp. rewrite Hh, Hs. intros [= <-]. by apply reply_sound. }
  pose proof (Hses sid s Hs) as (Hid & Hon & Hq & r & Hr & Hlt & He & Hp).
  rewrite (get_mcp_known fuel rid sessionId sid s) by done.
  intros [= <-].
  apply (sound_after rid w0); try done; cbn [with_session sessions heap].
  - intros r0 Hr0. unfold get_response, update_response. cbn.
    rewrite !lookup_insert_ne by lia. done.
  - intros sid0 s0. rewrite lookup_insert. case_decide; [subst sid0 | by left].
    intros [= <-]. right.
    repeat split; cbn [transport server]; try (by destruct s as [e []]).
    exists rid. split; [by destruct s as [e []] |]. split; [lia |]. split.
    + unfold get_response, update_response in *. cbn.
      rewrite !lookup_insert_eq. cbn. unfold get_response. cbn.
      rewrite lookup_insert_eq. cbn. by rewrite Hfresh.
    + cbn. destruct (promises (heap w0) !! rid) eqn:E; [| done].
      destruct (Hprom rid) as [Hlt' _]; [by eexists | lia].
  - intros p Hsome. by left.
Qed.

Lemma serve_sound fuel req w w' : sound w -> serve fuel req w = Ok w' -> sound w'.
Proof.
  intros Hsound. apply arrive_ready in Hsound.
  rewrite serve_cases.
  destruct (cors_origin _ _); [| intros [= <-]; by apply reply_sound].
  destruct (verb req).
  - by apply get_mcp_sound.
  - by apply post_mcp_sound.
Qed.

Lemma step_sound fuel ev w w' :
  sound w ->
  step JSON_stringify uuidv4 Engine createMcpServer engine_onmessage fuel w ev = Ok w' ->
  sound w'.
Proof.
  intros Hsound. destruct ev as [req|sid msg|rid]; cbn [step].
  - by apply serve_sound.
  - intros [= <-]. destruct Hsound as [Hses Hprom]. unfold engine_send.
    destruct (sessions w !! sid) as [s|] eqn:Hs; [| by split].
    pose proof (tidy_send_all (next_req w) (heap w) sid s (server s) [msg] (Hses sid s Hs))
      as Htidy.
    pose proof (undisturbed_send_all (next_req w) [msg] (transport s) (heap w)) as Hkeep.
    pose proof (send_all_promise_keys [msg] (transport s) (heap w)) as Hkeys.
    destruct (send_all_frame [msg] (transport s) (heap w)) as [_ Hext].
    unfold send_all in *. cbn [fold_left fst snd] in *.
    destruct (send (transport s) msg (heap w)) as [t' h']. cbn [fst snd] in *.
    split; cbn [with_session sessions heap next_req].
    + intros sid0 s0. rewrite lookup_insert. case_decide; [subst sid0 |].
      * by intros [= <-].
      * intros Hs0. eapply tidy_keep; [by apply Hses | done | done].
    + intros p Hsome. destruct (Hprom p) as [Hlt He].
      { revert Hsome. apply is_Some_keys. apply Hkeys. }
      split; [done |]. destruct (Hext p) as (_ & _ & -> & _). done.
  - intros [= <-]. destruct Hsound as [Hses Hprom]. unfold resume.
    assert (is_Some (promises (heap w) !! rid) ->
            forall f, sound (reply rid f (with_heap (forget_promise rid (heap w)) w)))
      as Hreply; [| by destruct (promises (heap w) !! rid) as [[|v|e]|] eqn:Hp;
                       [split | apply Hreply | apply Hreply | split]].
    intros [st Hp] f. unfold reply. cbn [with_heap heap sessions next_req].
    assert (forall r, r <> rid ->
              get_response r (update_response rid f
                                (forget_promise rid (heap w))) = get_response r (heap w))
      as Hother by (intros r Hr; by rewrite get_response_update_ne).
    split; cbn [sessions heap next_req].
    + intros sid s Hs. destruct (Hses sid s Hs) as (Hid & Hon & Hq & r & Hr & Hlt & He & Hnone).
      repeat split; try done. exists r. repeat split; try done.
      * rewrite Hother by congruence. done.
      * cbn. rewrite lookup_delete_ne by congruence. done.
    + intros p Hsome. cbn in Hsome. rewrite lookup_delete in Hsome.
      case_decide; [by destruct Hsome |].
      destruct (Hprom p Hsome) as [Hlt He]. split; [done |].
      rewrite Hother by congruence. done.
Qed.

Lemma run_sound fuel evs : forall w w',
  sound w ->
  run JSON_stringify uuidv4 Engine createMcpServer engine_onmessage fuel w evs = Ok w' ->
  sound w'.
Proof.
  induction evs as [|ev evs IH]; intros w w' Hsound; cbn [run].
  - by intros [= <-].
  - destruct (step _ _ _ _ _ fuel w ev) as [w1| |] eqn:Hstep; cbn [bind]; try discriminate.
    apply IH. by eapply step_sound.
Qed.

Lemma reachable_sound w :
  reachable JSON_stringify uuidv4 Engine createMcpServer engine_onmessage w -> sound w.
Proof.
  intros (env & fuel & evs & Hrun). eapply run_sound; [| exact Hrun].
  split.
  - intros sid s Hs. cbn in Hs. by rewrite lookup_empty in Hs.
  - intros p [st Hp]. cbn in Hp. by rewrite lookup_empty in Hp.
Qed.

Lemma route_total body : exists r, route body = Ok r.
Proof.
  destruct (classic_object body) as [[ms ->]|Hno].
  - rewrite route_obj. eauto.
  - rewrite route_non_object by done. eauto.
Qed.

Lemma header_value_inv hd sid : header_value hd = Some sid -> hd = Some sid /\ sid <> EmptyString.
Proof.
  unfold header_value. destruct hd as [x|]; [| discriminate].
  destruct (String.eqb_spec x EmptyString); [discriminate |]. by intros [= <-].
Qed.

(** X10. In every state the server can reach, each session of the
    registry is filed under the identifier its transport carries, has
    its engine connected, has a sink attached, namely the response of an
    earlier request, which has not ended, and has an empty queue: the
    server itself never queues an outbound message. *)
Theorem registered_sessions_stream_live w sid s :
  reachable JSON_stringify uuidv4 Engine createMcpServer engine_onmessage w ->
  sessions w !! sid = Some s ->
  _sessionId (transport s) = sid /\
  _onmessage (transport s) = true /\
  _messageQueue (transport s) = [] /\
  exists r, _currentResponse (transport s) = Some r /\ r < next_req w /\
    writableEnded (get_response r (heap w)) = false.
Proof.
  intros Hreach Hs. apply reachable_sound in Hreach as [Hses _].
  destruct (Hses sid s Hs) as (Hid & Hon & Hq & r & Hr & Hlt & He & _).
  eauto 10.
Qed.

(** X11. In every state the server can reach, every request to [/mcp]
    is handled to the end of the synchronous part of its handler: no
    classifier throws and the loop of [attachResponse] ends, with any
    amount of fuel. *)
Theorem serve_always_returns fuel (req : HttpRequest) w :
  reachable JSON_stringify uuidv4 Engine createMcpServer engine_onmessage w ->
  exists w', serve fuel req w = Ok w'.
Proof.
  intros Hreach. apply reachable_sound, arrive_ready in Hreach as (Hses & _).
  rewrite serve_cases. destruct (cors_origin _ _); [| eauto].
  destruct (verb req).
  - destruct (header_value (mcp_session_id req)) as [sid|] eqn:Hh.
    2: { unfold get_mcp. rewrite Hh. eauto. }
    destruct (sessions (arrive w) !! sid) as [s|] eqn:Hs.
    2: { unfold get_mcp. rewrite Hh, Hs. eauto. }
    destruct (Hses sid s Hs) as (_ & _ & Hq & _).
    rewrite (get_mcp_known fuel _ _ sid s) by done. eauto.
  - destruct (header_value (mcp_session_id req)) as [sid|] eqn:Hh.
    + apply header_value_inv in Hh as [Hh Hne]. rewrite Hh.
      destruct (sessions (arrive w) !! sid) as [s|] eqn:Hs.
      * rewrite (post_mcp_known fuel _ sid s) by done.
        destruct (route_total (body req)) as [r ->]. cbn [bind]. eauto.
      * unfold post_mcp. rewrite header_value_some, Hs by done. eauto.
    + rewrite post_mcp_no_session by done.
      destruct (holds_isInitializeRequest (body req)) as (b & -> & _). cbn [bind].
      destruct b; [| eauto].
      destruct (post_initialize_spec fuel (next_req w) (body req) (arrive w))
        as (w' & s & -> & _). eauto.
Qed.

(** X12. In every state the server can reach, a GET on a known session
    opens a stream on its own response: status 200 with the three SSE
    headers, one priming event under a new identifier, not ended. That
    response becomes the sink of the session; the sink it replaces is
    neither ended nor written to, and nothing else of the session
    changes. *)
Theorem get_attaches_new_sink fuel (req : HttpRequest) sid s w :
  reachable JSON_stringify uuidv4 Engine createMcpServer engine_onmessage w ->
  verb req = GET ->
  cors_origin (ALLOWED_ORIGINS w) (origin req) = true ->
  mcp_session_id req = Some sid ->
  sid <> EmptyString ->
  sessions w !! sid = Some s ->
  exists w1,
    serve fuel req w = Ok w1 /\
    sessions w1 =
      <[sid := mkSession (server s) (set_currentResponse (Some (next_req w)) (transport s))]>
        (sessions w) /\
    get_response (next_req w) (heap w1) =
      mkResponse 200 sse_headers true
        [sse_event (uuidv4 (uuid_count (heap w))) EmptyString] false /\
    (forall r, r <> next_req w -> get_response r (heap w1) = get_response r (heap w)) /\
    promises (heap w1) = promises (heap w) /\
    trace (heap w1) = trace (heap w).
Proof.
  intros Hreach Hverb Horigin Hsid Hne Hs.
  apply reachable_sound in Hreach as [Hses _].
  destruct (Hses sid s Hs) as (_ & _ & Hq & _).
  rewrite serve_cases, Horigin, Hverb, Hsid.
  rewrite (get_mcp_known fuel _ _ sid s) by (done || by apply header_value_some).
  eexists. split; [reflexivity |]. cbn [with_session sessions heap].
  split; [done |]. unfold arrive. cbn [heap]. split; [| split].
  - by rewrite get_response_update, get_response_draw, !get_response_update.
  - intros r Hr.
    by rewrite get_response_update_ne, get_response_draw, !get_response_update_ne.
  - done.
Qed.

(** ** Streams *)

(** With no pending request handler and a live sink, a run of sends is
    a run of frames on the sink. *)
Lemma send_all_to_sink r outs : forall t h,
  _pendingRequestHandler t = None ->
  _currentResponse t = Some r ->
  writableEnded (get_response r h) = false ->
  send_all outs t h = (t, write_frames JSON_stringify uuidv4 r outs h).
Proof.
  induction outs as [|m outs IH]; intros t h Hp Hr He; [done |].
  rewrite send_all_cons.
  rewrite (send_sink JSON_stringify uuidv4 t m h r) by done. cbn [fst snd].
  rewrite IH; try done.
  destruct (write_frames_response JSON_stringify uuidv4 r [m] h) as (_ & -> & _). done.
Qed.



(** ** What a step leaves alone *)

Lemma Ok_inj {A} (a b : A) : Ok a = Ok b -> a = b.
Proof. by intros [= ->]. Qed.

Lemma send_slot t msg h :
  _pendingRequestHandler (fst (send t msg h)) = None \/
  _pendingRequestHandler (fst (send t msg h)) = _pendingRequestHandler t.
Proof.
  unfold send. destruct (_pendingRequestHandler t) as [p|] eqn:Hp; [by left |].
  right. destruct (sink_open t h); [| by destruct t].
  by destruct (_currentResponse t).
Qed.

Lemma send_promise_other t msg h p :
  _pendingRequestHandler t <> Some p ->
  promises (snd (send t msg h)) !! p = promises h !! p.
Proof.
  intros Hne. unfold send. destruct (_pendingRequestHandler t) as [q|]; cbn.
  { rewrite lookup_alter_ne by congruence. done. }
  destruct (sink_open t h); [| done].
  by destruct (_currentResponse t).
Qed.

Lemma send_all_slot outs : forall t h,
  _pendingRequestHandler (fst (send_all outs t h)) = None \/
  _pendingRequestHandler (fst (send_all outs t h)) = _pendingRequestHandler t.
Proof.
  induction outs as [|m outs IH]; intros t h; [by right |].
  rewrite send_all_cons.
  destruct (IH (fst (send t m h)) (snd (send t m h))) as [->| ->]; [by left |].
  apply send_slot.
Qed.

Lemma send_all_promise_other outs : forall t h p,
  _pendingRequestHandler t <> Some p ->
  promises (snd (send_all outs t h)) !! p = promises h !! p.
Proof.
  induction outs as [|m outs IH]; intros t h p Hne; [done |].
  rewrite send_all_cons, IH.
  - by apply send_promise_other.
  - destruct (send_slot t m h) as [-> | ->]; [discriminate | done].
Qed.

(** What one event cannot do, in a process in good order: write to the
    response of an earlier request that is no session's sink and whose
    promise, if any, is pending; settle or forget a pending promise that
    no session's slot refers to; put the promise of an earlier request
    into a slot that did not hold it. *)
Lemma step_frame fuel ev w w' :
  sound w ->
  step JSON_stringify uuidv4 Engine createMcpServer engine_onmessage fuel w ev = Ok w' ->
  (forall r, r < next_req w ->
     (forall sid s, sessions w !! sid = Some s -> _currentResponse (transport s) <> Some r) ->
     promises (heap w) !! r = None \/ promises (heap w) !! r = Some Pending ->
     get_response r (heap w') = get_response r (heap w)) /\
  (forall p, p < next_req w ->
     (forall sid s, sessions w !! sid = Some s ->
        _pendingRequestHandler (transport s) <> Some p) ->
     promises (heap w) !! p = None \/ promises (heap w) !! p = Some Pending ->
     promises (heap w') !! p = promises (heap w) !! p) /\
  (forall sid s' q, sessions w' !! sid = Some s' ->
     _pendingRequestHandler (transport s') = Some q ->
     q = next_req w \/
     exists s, sessions w !! sid = Some s /\ _pendingRequestHandler (transport s) = Some q).
Proof.
  intros Hsound.
  assert (forall rid f (w0 : World Engine),
            sessions w0 = sessions w -> promises (heap w0) = promises (heap w) ->
            (forall r, r < rid -> get_response r (heap w0) = get_response r (heap w)) ->
            rid = next_req w ->
            (forall r, r < next_req w ->
               get_response r (heap (reply rid f w0)) = get_response r (heap w)) /\
            (forall p, promises (heap (reply rid f w0)) !! p = promises (heap w) !! p) /\
            (forall sid s' q, sessions (reply rid f w0) !! sid = Some s' ->
               _pendingRequestHandler (transport s') = Some q ->
               q = next_req w \/
               exists s, sessions w !! sid = Some s /\
                 _pendingRequestHandler (transport s) = Some q)) as Hreply.
  { intros rid f w0 Hs Hp Hr ->. unfold reply. cbn [with_heap sessions heap].
    split; [| split].
    - intros r Hlt. rewrite get_response_update_ne by lia. by apply Hr.
    - intros p. by rewrite <- Hp.
    - intros sid s' q Hs' Hq. right. exists s'. by rewrite <- Hs. }
  assert (forall r, r < next_req w ->
            get_response r (heap (arrive w)) = get_response r (heap w)) as Harr.
  { intros r Hlt. unfold arrive. cbn [heap]. by rewrite get_response_update_ne by lia. }
  pose proof (arrive_ready w Hsound) as (Hses0 & _).
  destruct ev as [req|sid msg|rid]; cbn [step].
  - rewrite serve_cases.
    destruct (cors_origin _ _).
    2: { intros [= <-]. destruct (Hreply (next_req w)
           (fun _ => res_json JSON_stringify forbidden_body (res_status 403 new_response))
           (arrive w)) as (H1 & H2 & H3); try done.
         split; [intros; by apply H1 | split; [intros; by apply H2 | exact H3]]. }
    destruct (verb req).
    + (* GET *)
      destruct (header_value (mcp_session_id req)) as [sid|] eqn:Hh.
      2: { unfold get_mcp. rewrite Hh. intros [= <-].
           destruct (Hreply (next_req w)
             (fun r => res_send "Missing MCP-Session-Id header" (res_status 400 r))
             (arrive w)) as (H1 & H2 & H3); try done.
           split; [intros; by apply H1 | split; [intros; by apply H2 | exact H3]]. }
      destruct (sessions (arrive w) !! sid) as [s|] eqn:Hs.
      2: { unfold get_mcp. rewrite Hh, Hs. intros [= <-].
           destruct (Hreply (next_req w)
             (fun r => res_send "Session not found" (res_status 404 r))
             (arrive w)) as (H1 & H2 & H3); try done.
           split; [intros; by apply H1 | split; [intros; by apply H2 | exact H3]]. }
      destruct (Hses0 sid s Hs) as (_ & _ & Hq & _).
      rewrite (get_mcp_known fuel _ _ sid s) by done.
      intros Heq. apply Ok_inj in Heq. subst w'.
      cbn [with_session sessions heap]. split; [| split].
      * intros r Hlt _ _.
        rewrite get_response_update_ne, get_response_draw, get_response_update_ne by lia.
        by apply Harr.
      * done.
      * intros sid0 s' q. rewrite lookup_insert. case_decide; [subst sid0 |].
        -- intros [= <-] Hslot. right. exists s. split; [done | by destruct s as [e []]].
        -- intros Hs' Hslot. right. by exists s'.
    + (* POST *)
      unfold post_mcp.
      destruct (header_value (mcp_session_id req)) as [sid|] eqn:Hh.
      * destruct (sessions (arrive w) !! sid) as [s|] eqn:Hs.
        2: { intros [= <-].
             destruct (Hreply (next_req w)
               (fun r => res_send "Session not found" (res_status 404 r))
               (arrive w)) as (H1 & H2 & H3); try done.
             split; [intros; by apply H1 | split; [intros; by apply H2 | exact H3]]. }
        destruct (Hses0 sid s Hs) as (_ & Hon & _).
        destruct (holds (isNotification (body req) ||| isResponse (body req)))
          as [[]| |]; cbn [bind]; try discriminate.
        { intros [= <-]. unfold post_accepted.
          rewrite handleMessage_connected by done.
          cbn [with_session sessions heap]. split; [| split].
          - intros r Hlt Hsink _. rewrite get_response_update_ne by lia.
            rewrite send_all_elsewhere by (by apply (Hsink sid s)).
            rewrite get_response_log. by apply Harr.
          - intros p Hlt Hslot _. cbn [update_response promises].
            rewrite send_all_promise_other by (by apply (Hslot sid s)). done.
          - intros sid0 s' q. rewrite lookup_insert. case_decide; [subst sid0 |].
            + intros [= <-]. cbn [transport]. intros Hq. right. exists s. split; [done |].
              match type of Hq with
              | _pendingRequestHandler (fst (send_all ?o ?t ?h)) = _ =>
                  destruct (send_all_slot o t h) as [Hn|Hn]; rewrite Hn in Hq
              end; [discriminate Hq | done].
            + intros Hs' Hq. right. by exists s'. }
        destruct (holds (isRequest (body req))) as [[]| |]; cbn [bind]; try discriminate.
        2: { intros [= <-].
             destruct (Hreply (next_req w)
               (fun r => res_send "Invalid JSON-RPC message" (res_status 400 r))
               (arrive w)) as (H1 & H2 & H3); try done.
             split; [intros; by apply H1 | split; [intros; by apply H2 | exact H3]]. }
        intros [= <-]. unfold post_request, setPendingRequestHandler.
        rewrite handleMessage_connected by (by destruct s as [e []]).
        cbn [with_session sessions heap transport server]. split; [| split].
        -- intros r Hlt Hsink _.
           rewrite send_all_elsewhere
             by (specialize (Hsink sid s Hs); by destruct s as [e []]).
           rewrite !get_response_log. by apply Harr.
        -- intros p Hlt Hslot _.
           rewrite send_all_promise_other by (cbn; intros [= Heq]; lia).
           cbn. rewrite lookup_insert_ne by lia. done.
        -- intros sid0 s' q. rewrite lookup_insert. case_decide; [subst sid0 |].
           ++ intros [= <-]. cbn [transport]. intros Hq.
              match type of Hq with
              | _pendingRequestHandler (fst (send_all ?o ?t ?h)) = _ =>
                  destruct (send_all_slot o t h) as [Hn|Hn]; rewrite Hn in Hq
              end; [discriminate Hq |].
              left. cbn in Hq. by injection Hq as <-.
           ++ intros Hs' Hq. right. by exists s'.
      * destruct (holds (isInitializeRequest (body req))) as [[]| |]; cbn [bind];
          try discriminate.
        2: { intros [= <-].
             destruct (Hreply (next_req w)
               (fun r => res_send "Missing MCP-Session-Id header" (res_status 400 r))
               (arrive w)) as (H1 & H2 & H3); try done.
             split; [intros; by apply H1 | split; [intros; by apply H2 | exact H3]]. }
        unfold post_initialize. cbn [draw_uuid connect transport server].
        unfold attachResponse. rewrite flush_empty by done. cbn [bind].
        rewrite handleMessage_connected by done. cbn [transport server].
        intros [= <-]. cbn [with_session sessions heap]. split; [| split].
        -- intros r Hlt _ _.
           rewrite send_all_elsewhere by (cbn; intros [= Heq]; lia).
           rewrite get_response_log, open_stream_other by lia. by apply Harr.
        -- intros p Hlt _ _. by rewrite send_all_promise_other.
        -- intros sid0 s' q. rewrite lookup_insert. case_decide; [subst sid0 |].
           ++ intros [= <-]. cbn [transport]. intros Hq.
              match type of Hq with
              | _pendingRequestHandler (fst (send_all ?o ?t ?h)) = _ =>
                  destruct (send_all_slot o t h) as [Hn|Hn]; rewrite Hn in Hq
              end; discriminate Hq.
           ++ intros Hs' Hq. right. by exists s'.
  - intros [= <-]. unfold engine_send.
    destruct (sessions w !! sid) as [s|] eqn:Hs.
    2: { split; [done | split; [done |]]. intros sid0 s' q Hs' Hq. right. by exists s'. }
    pose proof (send_all_elsewhere [msg] (transport s) (heap w)) as Helse.
    pose proof (send_all_promise_other [msg] (transport s) (heap w)) as Hprom.
    pose proof (send_all_slot [msg] (transport s) (heap w)) as Hslots.
    unfold send_all in *. cbn [fold_left fst snd] in *.
    destruct (send (transport s) msg (heap w)) as [t' h']. cbn [fst snd] in *.
    cbn [with_session sessions heap]. split; [| split].
    + intros r _ Hsink _. apply Helse. by apply (Hsink sid s).
    + intros p _ Hslot _. apply Hprom. by apply (Hslot sid s).
    + intros sid0 s' q. rewrite lookup_insert. case_decide; [subst sid0 |].
      * intros [= <-]. cbn [transport]. intros Hq. right. exists s. split; [done |].
        destruct Hslots as [Hn|Hn]; rewrite Hn in Hq; [discriminate Hq | done].
      * intros Hs' Hq. right. by exists s'.
  - intros [= <-]. unfold resume.
    assert (forall st f, promises (heap w) !! rid = Some st -> st <> Pending ->
              let w1 := reply rid f (with_heap (forget_promise rid (heap w)) w) in
              (forall r, r < next_req w ->
                 (forall sid s, sessions w !! sid = Some s ->
                    _currentResponse (transport s) <> Some r) ->
                 promises (heap w) !! r = None \/ promises (heap w) !! r = Some Pending ->
                 get_response r (heap w1) = get_response r (heap w)) /\
              (forall p, p < next_req w ->
                 (forall sid s, sessions w !! sid = Some s ->
                    _pendingRequestHandler (transport s) <> Some p) ->
                 promises (heap w) !! p = None \/ promises (heap w) !! p = Some Pending ->
                 promises (heap w1) !! p = promises (heap w) !! p) /\
              (forall sid s' q, sessions w1 !! sid = Some s' ->
                 _pendingRequestHandler (transport s') = Some q ->
                 q = next_req w \/
                 exists s, sessions w !! sid = Some s /\
                   _pendingRequestHandler (transport s) = Some q)) as Hsettled.
    { intros st f Hst Hne. unfold reply. cbn [with_heap heap sessions]. split; [| split].
      - intros r _ _ Hnot. rewrite get_response_update_ne; [done |].
        intros <-. rewrite Hst in Hnot. by destruct Hnot as [Hn|[= Hn]].
      - intros p _ _ Hnot. cbn. rewrite lookup_delete_ne; [done |].
        intros <-. rewrite Hst in Hnot. by destruct Hnot as [Hn|[= Hn]].
      - intros sid0 s' q Hs' Hq. right. by exists s'. }
    destruct (promises (heap w) !! rid) as [[|v|e]|] eqn:Hp.
    1, 4: split; [done | split; [done |]]; intros sid0 s' q Hs' Hq; right; by exists s'.
    + by apply (Hsettled (Fulfilled v)).
    + by apply (Hsettled (Rejected e)).
Qed.

Lemma step_next_req fuel ev w w' :
  wf w ->
  step JSON_stringify uuidv4 Engine createMcpServer engine_onmessage fuel w ev = Ok w' ->
  next_req w <= next_req w'.
Proof.
  intros Hwf. destruct ev as [req|sid msg|rid]; cbn [step].
  - rewrite serve_cases.
    assert (wired_all (S (next_req w)) (arrive w)) as Hall
      by (eapply (wired_all_mono (next_req w)); [exact Hwf | lia]).
    destruct (cors_origin _ _); [| intros [= <-]; cbn; lia].
    destruct (verb req); intros Hh.
    + apply (get_mcp_wired (S (next_req w))) in Hh as [_ ->]; [cbn; lia | done | lia].
    + apply (post_mcp_wired (S (next_req w))) in Hh as [_ ->]; [cbn; lia | done | lia].
  - intros [= <-]. unfold engine_send.
    destruct (sessions w !! sid); [| done].
    by destruct (send _ msg _).
  - intros [= <-]. unfold resume.
    by destruct (promises (heap w) !! rid) as [[]|].
Qed.

(** X15. A response that has ended is never touched again: in every
    state the server can reach, whatever events follow, the response of
    an earlier request that has been ended keeps its status, headers
    and body. The server never writes after the end. *)
Theorem ended_response_is_final fuel evs : forall w w' r,
  reachable JSON_stringify uuidv4 Engine createMcpServer engine_onmessage w ->
  run JSON_stringify uuidv4 Engine createMcpServer engine_onmessage fuel w evs = Ok w' ->
  r < next_req w ->
  writableEnded (get_response r (heap w)) = true ->
  get_response r (heap w') = get_response r (heap w).
Proof.
  intros w w' r Hreach. pose proof (reachable_wf w Hreach) as Hwf.
  apply reachable_sound in Hreach. revert w Hreach Hwf.
  induction evs as [|ev evs IH]; intros w Hsound Hwf; cbn [run].
  - by intros [= <-].
  - destruct (step _ _ _ _ _ fuel w ev) as [w1| |] eqn:Hstep; cbn [bind]; try discriminate.
    intros Hrun Hlt Hended.
    assert (get_response r (heap w1) = get_response r (heap w)) as Hkeep.
    { destruct (step_frame fuel ev w w1 Hsound Hstep) as (Hresp & _).
      destruct Hsound as [Hses Hprom]. apply Hresp; [done | |].
      - intros sid s Hs Hr.
        destruct (Hses sid s Hs) as (_ & _ & _ & r0 & Hr0 & _ & He & _).
        congruence.
      - left. destruct (promises (heap w) !! r) eqn:Hv; [| done].
        destruct (Hprom r) as [_ He]; [by eexists | congruence]. }
    rewrite <- Hkeep. apply IH; try done.
    + by eapply step_sound.
    + by eapply step_wf.
    + pose proof (step_next_req fuel ev w w1 Hwf Hstep). lia.
    + by rewrite Hkeep.
Qed.

(** X16. A request whose pending request handler has been displaced
    is never answered: in every state the server can reach, if the
    promise of request [rid] is pending and no transport holds its
    [resolve] any more, then whatever events follow the promise stays
    pending, no transport ever holds it again, and the response of the
    request is not written to. *)
Theorem displaced_request_is_never_answered fuel evs : forall w w' rid,
  reachable JSON_stringify uuidv4 Engine createMcpServer engine_onmessage w ->
  orphaned rid w ->
  run JSON_stringify uuidv4 Engine createMcpServer engine_onmessage fuel w evs = Ok w' ->
  orphaned rid w' /\
  get_response rid (heap w') = get_response rid (heap w).
Proof.
  intros w w' rid Hreach. apply reachable_sound in Hreach. revert w Hreach.
  induction evs as [|ev evs IH]; intros w Hsound Horph; cbn [run].
  - by intros [= <-].
  - destruct (step _ _ _ _ _ fuel w ev) as [w1| |] eqn:Hstep; cbn [bind]; try discriminate.
    intros Hrun.
    destruct (step_frame fuel ev w w1 Hsound Hstep) as (Hresp & Hprom & Hslots).
    destruct Horph as [Hpending Hnoslot].
    pose proof Hsound as [Hses Hpr].
    destruct (Hpr rid) as [Hlt _]; [by eexists |].
    assert (orphaned rid w1 /\ get_response rid (heap w1) = get_response rid (heap w))
      as [Horph1 Hkeep].
    { split; [split |].
      - rewrite Hprom; try done. by right.
      - intros sid s' Hs' Hq.
        destruct (Hslots sid s' rid Hs' Hq) as [->|(s & Hs & Hq0)]; [lia |].
        by apply (Hnoslot sid s).
      - apply Hresp; [done | |].
        + intros sid s Hs Hr.
          destruct (Hses sid s Hs) as (_ & _ & _ & r0 & Hr0 & _ & _ & Hnone).
          congruence.
        + by right. }
    rewrite <- Hkeep. apply IH; [by eapply step_sound | done | done].
Qed.

(** ** No promise is ever rejected

    The promise of a request is created pending, [send] calls its
    [resolve], the resumed handler drops it: no step of the server
    rejects a promise, so the wait of line 272 never throws. *)

Lemma settle_rejected v st e : settle v st = Rejected e -> st = Rejected e.
Proof. by destruct st. Qed.

Lemma send_never_rejected t msg h :
  never_rejected h -> never_rejected (snd (send t msg h)).
Proof.
  intros Hnr p e. unfold send. destruct (_pendingRequestHandler t) as [q|]; cbn.
  - rewrite lookup_alter. case_decide; [subst q | apply Hnr].
    destruct (promises h !! p) as [st|] eqn:Hp; [| done]. cbn.
    intros [= Hst]. apply settle_rejected in Hst. subst st. by apply (Hnr p e).
  - destruct (sink_open t h); [| apply Hnr].
    destruct (_currentResponse t); apply Hnr.
Qed.

Lemma send_all_never_rejected outs : forall t h,
  never_rejected h -> never_rejected (snd (send_all outs t h)).
Proof.
  induction outs as [|m outs IH]; intros t h Hnr; [done |].
  rewrite send_all_cons. apply IH. by apply send_never_rejected.
Qed.

Lemma flush_never_rejected fuel : forall t h t' h',
  flush JSON_stringify uuidv4 fuel t h = Ok (t', h') ->
  never_rejected h -> never_rejected h'.
Proof.
  induction fuel as [|fuel IH]; intros t h t' h' Hf Hnr; cbn in Hf;
    destruct (_messageQueue t) as [|m rest] eqn:Hq; try discriminate Hf.
  - by injection Hf as <- <-.
  - by injection Hf as <- <-.
  - destruct (truthy m).
    + pose proof (send_never_rejected (set_messageQueue rest t) m h Hnr) as Hnr2.
      destruct (send (set_messageQueue rest t) m h) as [t2 h2].
      eapply IH; [exact Hf | exact Hnr2].
    + eapply IH; [exact Hf | exact Hnr].
Qed.

Lemma handleMessage_never_rejected s body h :
  never_rejected h -> never_rejected (snd (handleMessage s body h)).
Proof.
  intros Hnr. destruct (_onmessage (transport s)) eqn:Hon.
  - rewrite handleMessage_connected by done. cbn [snd].
    by apply send_all_never_rejected.
  - unfold handleMessage. by rewrite Hon.
Qed.

Lemma post_mcp_never_rejected fuel rid sessionId body w w' :
  post_mcp fuel rid sessionId body w = Ok w' ->
  never_rejected (heap w) -> never_rejected (heap w').
Proof.
  unfold post_mcp. intros Hpost Hnr.
  destruct (header_value sessionId) as [sid|].
  - destruct (sessions w !! sid) as [s|]; [| by injection Hpost as <-].
    destruct (holds (isNotification body ||| isResponse body)) as [[]| |];
      cbn [bind] in Hpost; try discriminate Hpost.
    + injection Hpost as <-. unfold post_accepted.
      pose proof (handleMessage_never_rejected s body (heap w) Hnr) as Hnr'.
      by destruct (handleMessage s body (heap w)).
    + destruct (holds (isRequest body)) as [[]| |];
        cbn [bind] in Hpost; try discriminate Hpost; injection Hpost as <-; [| done].
      unfold post_request, setPendingRequestHandler.
      match goal with
      | |- context [handleMessage ?s1 body ?h1] =>
          pose proof (handleMessage_never_rejected s1 body h1) as Hnr';
          destruct (handleMessage s1 body h1)
      end.
      apply Hnr'. intros p e. cbn. rewrite lookup_insert. case_decide; [done | apply Hnr].
  - destruct (holds (isInitializeRequest body)) as [[]| |];
      cbn [bind] in Hpost; try discriminate Hpost; [| by injection Hpost as <-].
    unfold post_initialize in Hpost. cbn [draw_uuid] in Hpost.
    match type of Hpost with
    | context [attachResponse _ _ fuel rid ?t0 ?h0] =>
        destruct (attachResponse JSON_stringify uuidv4 fuel rid t0 h0) as [[t1 h5]| |] eqn:Hat;
          cbn [bind] in Hpost; try discriminate Hpost;
        assert (never_rejected h5) as Hnr5
          by (eapply flush_never_rejected; [exact Hat | exact Hnr])
    end.
    match type of Hpost with
    | context [handleMessage ?s1 body h5] =>
        pose proof (handleMessage_never_rejected s1 body h5 Hnr5) as Hnr';
        destruct (handleMessage s1 body h5)
    end.
    by injection Hpost as <-.
Qed.

Lemma get_mcp_never_rejected fuel rid sessionId w w' :
  get_mcp JSON_stringify uuidv4 Engine fuel rid sessionId w = Ok w' ->
  never_rejected (heap w) -> never_rejected (heap w').
Proof.
  unfold get_mcp. intros Hget Hnr.
  destruct (header_value sessionId) as [sid|]; [| by injection Hget as <-].
  destruct (sessions w !! sid) as [s|]; [| by injection Hget as <-].
  cbn [draw_uuid] in Hget.
  match type of Hget with
  | context [attachResponse _ _ fuel rid ?t0 ?h0] =>
      destruct (attachResponse JSON_stringify uuidv4 fuel rid t0 h0) as [[t1 h5]| |] eqn:Hat;
        cbn [bind] in Hget; try discriminate Hget;
      assert (never_rejected h5) as Hnr5
        by (eapply flush_never_rejected; [exact Hat | exact Hnr])
  end.
  by injection Hget as <-.
Qed.

Lemma step_never_rejected fuel ev w w' :
  step JSON_stringify uuidv4 Engine createMcpServer engine_onmessage fuel w ev = Ok w' ->
  never_rejected (heap w) -> never_rejected (heap w').
Proof.
  destruct ev as [req|sid msg|rid]; cbn [step].
  - rewrite serve_cases.
    destruct (cors_origin _ _); [| by intros [= <-]].
    destruct (verb req); intros Hh Hnr.
    + by eapply get_mcp_never_rejected.
    + by eapply post_mcp_never_rejected.
  - intros [= <-] Hnr. unfold engine_send.
    destruct (sessions w !! sid) as [s|]; [| done].
    pose proof (send_never_rejected (transport s) msg (heap w) Hnr) as Hnr'.
    by destruct (send (transport s) msg (heap w)).
  - intros [= <-] Hnr. unfold resume.
    assert (forall f, never_rejected
              (heap (reply rid f (with_heap (forget_promise rid (heap w)) w)))) as Hreply.
    { intros f p e. cbn. rewrite lookup_delete. case_decide; [done | apply Hnr]. }
    destruct (promises (heap w) !! rid) as [[|v|e]|]; try done; apply Hreply.
Qed.

Lemma run_never_rejected fuel evs : forall w w',
  run JSON_stringify uuidv4 Engine createMcpServer engine_onmessage fuel w evs = Ok w' ->
  never_rejected (heap w) -> never_rejected (heap w').
Proof.
  induction evs as [|ev evs IH]; intros w w'; cbn [run].
  - by intros [= <-].
  - destruct (step _ _ _ _ _ fuel w ev) as [w1| |] eqn:Hstep; cbn [bind]; try discriminate.
    intros Hrun Hnr. eapply IH; [exact Hrun |]. by eapply step_never_rejected.
Qed.


End HandlerProperties.

(** * Failure while a request is handled (lines 258-282) *)

Section FailureProperties.

Variable JSON_stringify : jsval -> string.
Variable uuidv4 : nat -> string.
Variable Engine : Type.
Variable createMcpServer : Engine.
Variable engine_onmessage : Engine -> jsval -> Engine * list jsval.
Variable engine_onmessage_throwing : Engine -> jsval -> Engine * list jsval * Completion.

Local Abbreviation post_request_throwing :=
  (post_request_throwing JSON_stringify uuidv4 Engine engine_onmessage_throwing).
Local Abbreviation resume := (resume JSON_stringify Engine).

Implicit Types (w : World Engine) (s : Session Engine) (t : Transport) (h : Heap).

(** With a callback that returns, the model with exceptions is the
    model without. *)
Lemma post_request_throwing_returns rid sid s body w :
  engine_onmessage_throwing (server s) body = (engine_onmessage (server s) body, Returns) ->
  post_request_throwing rid sid s body w =
    (post_request JSON_stringify uuidv4 Engine engine_onmessage rid sid s body w, Returns).
Proof.
  intros Hcb.
  unfold post_request_throwing, post_request,
    handleMessage_throwing, handleMessage, setPendingRequestHandler.
  cbn [transport server set_pendingSlot _onmessage]. rewrite Hcb.
  destruct (_onmessage (transport s)); [| done].
  destruct (engine_onmessage (server s) body) as [e' outs].
  by destruct (send_all _ _ outs _ _) as [t' h'].
Qed.

(** What [send_all] leaves in the queue: what was there, then some of
    the messages it was given. *)
Lemma send_all_queue_grows outs : forall t h,
  exists queued,
    _messageQueue (fst (send_all JSON_stringify uuidv4 outs t h)) = _messageQueue t ++ queued /\
    forall m, m ∈ queued -> m ∈ outs.
Proof.
  induction outs as [|m outs IH]; intros t h.
  - exists []. cbn. by rewrite app_nil_r.
  - rewrite send_all_cons.
    destruct (IH (fst (send JSON_stringify uuidv4 t m h))
                 (snd (send JSON_stringify uuidv4 t m h))) as (queued & Hq & Hin).
    assert (_messageQueue (fst (send JSON_stringify uuidv4 t m h)) = _messageQueue t \/
            _messageQueue (fst (send JSON_stringify uuidv4 t m h)) = _messageQueue t ++ [m])
      as [Hsame|Hpush].
    { unfold send. destruct (_pendingRequestHandler t); [by left |].
      destruct (sink_open t h); [| by right].
      destruct (_currentResponse t); by left. }
    + exists queued. rewrite Hq, Hsame. split; [done |].
      intros m' Hm'. apply elem_of_cons. right. by apply Hin.
    + exists (m :: queued). rewrite Hq, Hpush, <- app_assoc. split; [done |].
      intros m' [->|Hm']%elem_of_cons; apply elem_of_cons; [by left | right; by apply Hin].
Qed.


End FailureProperties.

(** * The protocol handlers and the entry point (mcp-setup.ts) *)

Section ToolsProperties.

Import Tools.

Variable Schema : Type.
Variable JsonSchema : Type.
Variable ServerContext : Type.
Variable MCP_TOOLS : list (string * Tool Schema ServerContext).
Variable inherited : string -> bool.
Variable inherited_failure : string -> jsval -> Thrown.
Variable safeParse : Schema -> jsval -> SafeParse.
Variable zodToJsonSchema : Schema -> JsonSchema.
Variable formatErrorForUser : Thrown -> string.
Variable JSON_stringify_indented : jsval -> jsval.

Local Abbreviation list_tools := (list_tools Schema JsonSchema ServerContext MCP_TOOLS zodToJsonSchema).
Local Abbreviation call_tool :=
  (call_tool Schema ServerContext MCP_TOOLS inherited inherited_failure safeParse
     formatErrorForUser JSON_stringify_indented).
Local Abbreviation lookup_tool := (lookup_tool Schema ServerContext MCP_TOOLS inherited).

Lemma own_tool_entry name (table : list (string * Tool Schema ServerContext)) tool :
  own_tool Schema ServerContext name table = Some tool -> (name, tool) ∈ table.
Proof.
  induction table as [|[k t] rest IH]; cbn; [done |].
  destruct (own_tool Schema ServerContext name rest) as [later|].
  - intros [= <-]. apply elem_of_cons. right. by apply IH.
  - destruct (String.eqb_spec name k) as [->|]; [| done].
    intros [= <-]. apply elem_of_cons. by left.
Qed.

Lemma own_tool_named name (table : list (string * Tool Schema ServerContext)) :
  name ∈ map fst table -> is_Some (own_tool Schema ServerContext name table).
Proof.
  induction table as [|[k t] rest IH]; cbn.
  - by intros ?%elem_of_nil.
  - intros Hin. destruct (own_tool Schema ServerContext name rest) as [later|] eqn:Hrest;
      [by eexists |].
    apply elem_of_cons in Hin as [->|Hin].
    + rewrite String.eqb_refl. by eexists.
    + destruct (IH Hin) as [? [=]].
Qed.

Lemma list_tools_names : map (d_name JsonSchema) list_tools = map fst MCP_TOOLS.
Proof.
  unfold list_tools, Tools.list_tools. rewrite map_map. by apply map_ext.
Qed.

(** X17. The two handlers agree on what a tool is.  [tools/list]
    names the entries of the table, in its order.  A call to a listed
    name never fails as a request: whatever the arguments, the handler
    returns a result.  The handler throws only for a name that is not
    listed (and that the table does not inherit either); it has then
    run nothing, and its error names the tools that are listed.  And a
    result that is not marked [isError] comes from the handler of an
    entry of that name, which was given arguments the schema of the
    entry accepted, and returned. *)
Theorem listed_tools_are_callable :
  map (d_name JsonSchema) list_tools = map fst MCP_TOOLS /\
  (forall name rawArgs context,
     name ∈ map (d_name JsonSchema) list_tools ->
     exists context' result, call_tool name rawArgs context = (context', inl result)) /\
  (forall name rawArgs context error,
     snd (call_tool name rawArgs context) = inr error ->
     (name ∉ map (d_name JsonSchema) list_tools) /\
     inherited name = false /\
     fst (call_tool name rawArgs context) = context /\
     error = ConfigurationError
               ("Tool not found: " +:+ name +:+ ". Available tools: " +:+
                String.concat ", " (map (d_name JsonSchema) list_tools))) /\
  (forall name rawArgs context context' result,
     call_tool name rawArgs context = (context', inl result) ->
     isError result = false ->
     exists tool data value,
       (name, tool) ∈ MCP_TOOLS /\
       safeParse (inputSchema Schema ServerContext tool)
         (if truthy rawArgs then rawArgs else JObj []) = ParseSuccess data /\
       handler Schema ServerContext tool data context = (context', inl value)).
Proof.
  split; [exact list_tools_names |]. rewrite list_tools_names.
  split; [| split].
  - intros name rawArgs context Hin.
    destruct (own_tool_named name MCP_TOOLS Hin) as [tool Hown].
    unfold call_tool, Tools.call_tool, Tools.lookup_tool. rewrite Hown.
    destruct (safeParse _ _) as [data|errors]; [| by eexists _, _].
    destruct (handler _ _ tool data context) as [context' [value|error]]; by eexists _, _.
  - intros name rawArgs context error.
    unfold call_tool, Tools.call_tool, Tools.lookup_tool.
    destruct (own_tool Schema ServerContext name MCP_TOOLS) as [tool|] eqn:Hown.
    + destruct (safeParse _ _) as [data|errors]; [| discriminate].
      by destruct (handler _ _ tool data context) as [context' [value|e]].
    + destruct (inherited name); [discriminate |]. cbn. intros [= <-].
      repeat split. intros Hin.
      destruct (own_tool_named name MCP_TOOLS Hin) as [tool Htool]. congruence.
  - intros name rawArgs context context' result.
    unfold call_tool, Tools.call_tool, Tools.lookup_tool.
    destruct (own_tool Schema ServerContext name MCP_TOOLS) as [tool|] eqn:Hown.
    + destruct (safeParse _ _) as [data|errors] eqn:Hparse.
      * destruct (handler _ _ tool data context) as [context1 [value|e]] eqn:Hrun.
        -- intros [= <- <-] _. exists tool, data, value.
           split; [by apply own_tool_entry | done].
        -- by intros [= <- <-].
      * by intros [= <- <-].
    + destruct (inherited name); [by intros [= <- <-] | discriminate].
Qed.

End ToolsProperties.

Section CliProperties.

Import Cli.

Variable MCP_SERVER_NAME : string.
Variable MCP_SERVER_VERSION : string.

Local Abbreviation main := (main MCP_SERVER_NAME MCP_SERVER_VERSION).

Lemma parse_args_help args : forall parsed,
  help (fold_left parse_arg args parsed) = true <->
  help parsed = true \/ exists arg, arg ∈ args /\ (arg = "--help" \/ arg = "-h").
Proof.
  induction args as [|a args IH]; intros parsed; cbn [fold_left].
  - split; [by left | intros [H|(arg & Hin & _)]; [done | by apply elem_of_nil in Hin]].
  - rewrite IH. unfold parse_arg.
    destruct (String.eqb_spec a "--help") as [->|Hn1]; cbn [orb].
    { split; [intros _; right; exists "--help"; split; [apply elem_of_cons; by left | by left]
             | intros _; by left]. }
    destruct (String.eqb_spec a "-h") as [->|Hn2]; cbn [orb].
    { split; [intros _; right; exists "-h"; split; [apply elem_of_cons; by left | by right]
             | intros _; by left]. }
    assert ((exists arg, arg ∈ a :: args /\ (arg = "--help" \/ arg = "-h")) <->
            (exists arg, arg ∈ args /\ (arg = "--help" \/ arg = "-h"))) as Hskip.
    { split.
      - intros (arg & [->|Hin]%elem_of_cons & Harg); [by destruct Harg | by exists arg].
      - intros (arg & Hin & Harg). exists arg. split; [apply elem_of_cons; by right | done]. }
    rewrite Hskip.
    destruct (String.eqb a "--version" || String.eqb a "-v"); cbn [help]; done.
Qed.

Lemma parse_args_version args : forall parsed,
  version (fold_left parse_arg args parsed) = true <->
  version parsed = true \/ exists arg, arg ∈ args /\ (arg = "--version" \/ arg = "-v").
Proof.
  induction args as [|a args IH]; intros parsed; cbn [fold_left].
  - split; [by left | intros [H|(arg & Hin & _)]; [done | by apply elem_of_nil in Hin]].
  - rewrite IH. unfold parse_arg.
    assert (forall b, (a = "--version" \/ a = "-v" -> b = true) ->
              (a <> "--version" -> a <> "-v" -> b = version parsed) ->
              (b = true \/ (exists arg, arg ∈ args /\ (arg = "--version" \/ arg = "-v")) <->
               version parsed = true \/
               exists arg, arg ∈ a :: args /\ (arg = "--version" \/ arg = "-v"))) as Hcase.
    { intros b Hyes Hno. split.
      - intros [Hb|(arg & Hin & Harg)].
        + destruct (decide (a = "--version")) as [Ha|Ha];
            [right; exists a; split; [apply elem_of_cons; by left | by left] |].
          destruct (decide (a = "-v")) as [Hb'|Hb'];
            [right; exists a; split; [apply elem_of_cons; by left | by right] |].
          left. by rewrite <- (Hno Ha Hb').
        + right. exists arg. split; [apply elem_of_cons; by right | done].
      - intros [Hv|(arg & [->|Hin]%elem_of_cons & Harg)].
        + destruct (decide (a = "--version")) as [Ha|Ha]; [left; apply Hyes; by left |].
          destruct (decide (a = "-v")) as [Hb'|Hb']; [left; apply Hyes; by right |].
          left. by rewrite (Hno Ha Hb').
        + left. by apply Hyes.
        + right. by exists arg. }
    apply Hcase.
    + intros [->| ->]; reflexivity.
    + intros Hn1 Hn2.
      destruct (String.eqb_spec a "--help") as [->|_]; [done |].
      destruct (String.eqb_spec a "-h") as [->|_]; [done |]. cbn [orb].
      destruct (String.eqb_spec a "--version") as [|_]; [done |].
      by destruct (String.eqb_spec a "-v") as [|_].
Qed.

Lemma parseArgs_help argv : help (parseArgs argv) = true <-> wants_help argv.
Proof.
  unfold parseArgs, wants_help. rewrite parse_args_help. cbn. split; [| by right].
  by intros [?|?].
Qed.

Lemma parseArgs_version argv : version (parseArgs argv) = true <-> wants_version argv.
Proof.
  unfold parseArgs, wants_version. rewrite parse_args_version. cbn. split; [| by right].
  by intros [?|?].
Qed.

(** X18. What the command does, by its command line and environment.
    A version flag ([--version] or [-v]) among the arguments prints the
    version and exits with 0, whatever else is given; failing that, a
    help flag ([--help] or [-h]) prints the help text and exits with 0;
    failing both, [--http] anywhere on the command line or
    [NOTIFLY_USE_HTTP] set to [true] is refused with two lines of
    explanation and exit code 1; only in the remaining case is the
    server started, on stdio.  Everything printed goes to the standard
    error stream, and arguments that are none of these flags are
    ignored. *)
Theorem main_decision (argv : list string) (NOTIFLY_USE_HTTP : option string) :
  (wants_version argv ->
   main argv NOTIFLY_USE_HTTP = mkRun [MCP_SERVER_VERSION] (Exit 0)) /\
  (~ wants_version argv -> wants_help argv ->
   main argv NOTIFLY_USE_HTTP =
     mkRun [help_text MCP_SERVER_NAME MCP_SERVER_VERSION] (Exit 0)) /\
  (~ wants_version argv -> ~ wants_help argv -> wants_http argv NOTIFLY_USE_HTTP ->
   main argv NOTIFLY_USE_HTTP =
     mkRun
       ["[Error] HTTP transport has been archived and is not available in this build.";
        "Please use stdio transport (default) or check docs/archive/ for HTTP implementation."]
       (Exit 1)) /\
  (~ wants_version argv -> ~ wants_help argv -> ~ wants_http argv NOTIFLY_USE_HTTP ->
   main argv NOTIFLY_USE_HTTP =
     mkRun [MCP_SERVER_NAME +:+ " v" +:+ MCP_SERVER_VERSION +:+ " connected (stdio)"]
       Serving).
Proof.
  pose proof (parseArgs_version argv) as Hv. pose proof (parseArgs_help argv) as Hh.
  assert (includes argv "--http"
          || match NOTIFLY_USE_HTTP with
             | Some v => String.eqb v "true"
             | None => false
             end = true <-> wants_http argv NOTIFLY_USE_HTTP) as Hhttp.
  { unfold wants_http. rewrite orb_true_iff.
    assert (includes argv "--http" = true <-> "--http" ∈ argv) as ->.
    { pose proof (includes_false argv "--http") as Hf.
      destruct (includes argv "--http").
      - split; [| done]. intros _.
        destruct (decide ("--http" ∈ argv)) as [|Hn]; [done |].
        apply Hf in Hn. discriminate Hn.
      - split; [done |]. intros Hin. exfalso. by apply (proj1 Hf eq_refl). }
    destruct NOTIFLY_USE_HTTP as [v|].
    - destruct (String.eqb_spec v "true") as [->|Hn]; [by split; right |].
      split; (intros [?|?]; [by left | congruence]).
    - split; (intros [?|?]; [by left | done]). }
  unfold main, Cli.main.
  destruct (version (parseArgs argv)).
  { split; [done |]. destruct (proj1 Hv eq_refl) as (arg & Hin & Harg).
    repeat split; intros Hn; destruct Hn; by exists arg. }
  assert (~ wants_version argv) as Hnv by (intros Hw; by apply Hv in Hw).
  split; [done |].
  destruct (help (parseArgs argv)).
  { split; [done |]. split; intros _ Hn; destruct Hn; by apply Hh. }
  assert (~ wants_help argv) as Hnh by (intros Hw; by apply Hh in Hw).
  split; [done |].
  destruct (includes argv "--http" || _).
  - split; [done |]. intros _ _ Hn. destruct Hn. by apply Hhttp.
  - split; [| done]. intros _ _ Hw. by apply Hhttp in Hw.
Qed.

End CliProperties.

(** ** The server at work

    Runs of the server on the platform and engine of [Demo]. *)

Module Run.
Import Demo.

Abbreviation post_mcp := (post_mcp stringify uuid Engine create onmessage).
Abbreviation serve := (serve stringify uuid Engine create onmessage).
Abbreviation engine_send := (engine_send stringify uuid Engine).
Abbreviation resume := (resume stringify Engine).
Abbreviation send := (send stringify uuid).
Abbreviation send_all := (send_all stringify uuid).
Abbreviation attachResponse := (attachResponse stringify uuid).
Abbreviation frame := (frame stringify uuid).
Abbreviation post_request_throwing :=
  (post_request_throwing stringify uuid Engine onmessage_throwing).

Example opened_session : sessions opened !! "uuid-0" = Some session0.
Proof. vm_compute. reflexivity. Qed.

Example split_comma_example :
  split_comma "https://a.example,,b " = ["https://a.example"; EmptyString; "b "].
Proof. reflexivity. Qed.

Example stringify_example :
  stringify (pong (JNum 2)) =
  "{" +:+ quoted "jsonrpc" +:+ ":" +:+ quoted "2.0" +:+ "," +:+ quoted "id" +:+ ":2,"
      +:+ quoted "result" +:+ ":{}}".
Proof. vm_compute. reflexivity. Qed.

(** An engine that answers from inside [onmessage]: the reply of a
    [ping] is the HTTP response. *)
Example ping_answered :
  exists w, run 1 opened [POST_ (Some "uuid-0") (request 2 "ping"); Resume 1] = Ok w /\
    get_response 1 (heap w) = mkResponse 200 [] true [stringify (pong (JNum 2))] true.
Proof. eexists. split; vm_compute; reflexivity. Qed.

(** C7 on some inputs that are not messages. *)
Example classifier_on_junk :
  holds (isRequest JNull) = Ok false /\
  holds (isResponse (JStr "result")) = Ok false /\
  holds (isNotification (JArr [JStr "method"])) = Ok false /\
  holds (isInitializeRequest (JObj [("method", JNum 1)])) = Ok false /\
  holds (isRequest (JObj [("method", JStr "ping"); ("id", JNull)])) = Ok true.
Proof. repeat split. Qed.





(** C6 at work: a notification sent to a session that does not exist. *)
Lemma post_unknown_session_not_found_witness :
  exists w,
    post_mcp 1 0 (Some "no-such-session")
      (JObj [("jsonrpc", JStr "2.0"); ("method", JStr "notifications/initialized")])
      (boot None) = Ok w /\
    statusCode (get_response 0 (heap w)) = 404%Z /\
    sessions w = ∅ /\ trace (heap w) = [].
Proof.
  destruct (post_unknown_session_not_found stringify uuid Engine create onmessage
              1 0 "no-such-session"
              (JObj [("jsonrpc", JStr "2.0"); ("method", JStr "notifications/initialized")])
              (boot None))
    as (w & Hpost & Hs & Ht & _ & H404 & _).
  - discriminate.
  - reflexivity.
  - exists w. repeat split; assumption.
Defined.

(** C1 at work: a [tools/list] request on the open session; the engine
    answers later, with a message bearing another [id]. *)
Lemma request_answered_by_next_outbound_message_witness :
  exists w1,
    serve 1 (mkRequest POST None (Some "uuid-0") (request 2 "tools/list")) opened = Ok w1 /\
    get_response 1 (heap w1) = new_response /\
    get_response 1 (heap (resume 1 (engine_send "uuid-0" (result 99) w1))) =
      mkResponse 200 [] true [stringify (result 99)] true.
Proof.
  destruct (request_answered_by_next_outbound_message stringify uuid Engine create
              onmessage 1 (mkRequest POST None (Some "uuid-0") (request 2 "tools/list"))
              "uuid-0" session0 opened)
    as (w1 & s1 & Hpost & Hs1 & _ & Hwait & Hcase & Hlater & _).
  - exists None, 1, [POST_ None initialize]. vm_compute. reflexivity.
  - reflexivity.
  - reflexivity.
  - reflexivity.
  - discriminate.
  - vm_compute. reflexivity.
  - reflexivity.
  - exists w1. split; [exact Hpost |]. split; [exact Hwait |].
    destruct Hcase as [Hslot Hpending].
    exact (Hlater w1 s1 (result 99) Hs1 Hslot Hpending Hwait).
Defined.

(** The claim of C1 fails when a second request is submitted on the
    session before the engine has answered the first. Requests 1 and 2
    are both routed as requests; the first message the engine sends
    after either delivery is [result 2]. It goes to the handler of
    request 2, whose [resolve] has replaced that of request 1 in the
    slot; the next message goes to the SSE stream. Request 1 is never
    answered. *)
Lemma second_request_takes_the_reply :
  route (request 2 "tools/list") = Ok RRequest /\
  route (request 3 "tools/call") = Ok RRequest /\
  exists w,
    run 1 opened
      [POST_ (Some "uuid-0") (request 2 "tools/list");
       POST_ (Some "uuid-0") (request 3 "tools/call");
       EngineSend "uuid-0" (result 2); Resume 1; Resume 2;
       EngineSend "uuid-0" (result 3); Resume 1; Resume 2] = Ok w /\
    get_response 1 (heap w) = new_response /\
    promises (heap w) !! 1 = Some Pending /\
    get_response 2 (heap w) = mkResponse 200 [] true [stringify (result 2)] true /\
    chunks (get_response 0 (heap w)) =
      [sse_event (uuid 1) EmptyString; frame 2 (result 3)].
Proof.
  do 2 (split; [reflexivity |]).
  eexists. split; [vm_compute; reflexivity |]. repeat split.
Qed.



(** C8 at work. *)
Lemma origin_outside_allow_list_is_forbidden_witness :
  exists w,
    serve 1 (mkRequest POST (Some "https://evil.example") None initialize)
      (boot (Some "https://a.example,https://b.example")) = Ok w /\
    get_response 0 (heap w) = mkResponse 403 [] true [stringify forbidden_body] true /\
    sessions w = ∅.
Proof.
  destruct (origin_outside_allow_list_is_forbidden stringify uuid Engine create onmessage
              1 "https://a.example,https://b.example" "https://evil.example"
              (mkRequest POST (Some "https://evil.example") None initialize)
              (boot (Some "https://a.example,https://b.example")))
    as ((w & Hserve & H403 & _ & Hs & _) & _).
  - reflexivity.
  - discriminate.
  - reflexivity.
  - discriminate.
  - apply includes_false. reflexivity.
  - exists w. repeat split; assumption.
Defined.

(** The claim of C8 fails when [ALLOWED_ORIGINS] is not set: the list
    is empty, the origin is not on it, and the request goes through to
    the handler, which here opens a session. *)
Lemma any_origin_passes_without_allow_list :
  ("https://evil.example" ∉ allowedOrigins None) /\
  security_middleware stringify None (Some "https://evil.example") new_response =
    (new_response, true) /\
  exists w,
    serve 1 (mkRequest POST (Some "https://evil.example") None initialize) (boot None)
      = Ok w /\
    statusCode (get_response 0 (heap w)) = 200%Z /\
    (server <$> sessions w !! "uuid-0") = Some [initialize].
Proof.
  split; [apply not_elem_of_nil |]. split; [reflexivity |].
  eexists. split; [vm_compute; reflexivity |]. repeat split.
Qed.



(** ** The further properties at work *)

(** X3 at work: with the allow-list [https://a.example,https://b.example]
    the origin [https://evil.example] is stopped with a 403. *)
Lemma security_middleware_decision_witness :
  security_middleware stringify (Some "https://a.example,https://b.example")
    (Some "https://evil.example") new_response =
  (res_json stringify forbidden_body (res_status 403 new_response), false).
Proof.
  destruct (security_middleware_decision stringify
              (Some "https://a.example,https://b.example")
              (Some "https://evil.example") new_response) as (_ & _ & Hstop).
  rewrite <- Hstop by reflexivity. reflexivity.
Defined.

(** X5 at work: a GET without header and a GET for a session nobody
    opened. *)
Lemma get_refused_witness :
  get_mcp stringify uuid Engine 1 1 None (arrive opened) =
    Ok (reply 1 (fun r => res_send "Missing MCP-Session-Id header" (res_status 400 r))
          (arrive opened)) /\
  get_mcp stringify uuid Engine 1 1 (Some "nobody") (arrive opened) =
    Ok (reply 1 (fun r => res_send "Session not found" (res_status 404 r)) (arrive opened)).
Proof.
  split.
  - destruct (get_refused stringify uuid Engine 1 1 None (arrive opened)) as (Hmissing & _).
    apply Hmissing. reflexivity.
  - destruct (get_refused stringify uuid Engine 1 1 (Some "nobody") (arrive opened))
      as (_ & Hunknown & _).
    apply (Hunknown "nobody"); [reflexivity | vm_compute; reflexivity].
Defined.

(** X6 at work: a number as body on the open session. *)
Lemma invalid_message_refused_witness :
  exists w',
    post_mcp 1 1 (Some "uuid-0") (JNum 3) (arrive opened) = Ok w' /\
    statusCode (get_response 1 (heap w')) = 400%Z /\
    trace (heap w') = trace (heap (arrive opened)).
Proof.
  destruct (invalid_message_refused stringify uuid Engine create onmessage 1 1 "uuid-0"
              session0 (JNum 3) (arrive opened))
    as (w' & Hpost & _ & Htrace & _ & Hstatus & _).
  - done.
  - vm_compute. reflexivity.
  - reflexivity.
  - exists w'. split; [exact Hpost |]. split; [exact Hstatus | exact Htrace].
Defined.

(** X7 at work: a notification on the open session. *)
Lemma notification_or_response_accepted_witness :
  exists w1,
    serve 1 (mkRequest POST None (Some "uuid-0")
               (JObj [("jsonrpc", JStr "2.0"); ("method", JStr "notifications/initialized")]))
      opened = Ok w1 /\
    get_response 1 (heap w1) = mkResponse 202 [] true [] true /\
    deliveries (trace (heap w1)) = S (deliveries (trace (heap opened))).
Proof.
  destruct (notification_or_response_accepted stringify uuid Engine create onmessage 1
              (mkRequest POST None (Some "uuid-0")
                 (JObj [("jsonrpc", JStr "2.0"); ("method", JStr "notifications/initialized")]))
              "uuid-0" session0 opened)
    as (w1 & s1 & Hserve & _ & _ & Hresp & Hdel & _).
  - exists None, 1, [POST_ None initialize]. vm_compute. reflexivity.
  - reflexivity.
  - reflexivity.
  - reflexivity.
  - done.
  - vm_compute. reflexivity.
  - reflexivity.
  - exists w1. split; [exact Hserve |]. split; [exact Hresp | exact Hdel].
Defined.


(** X9 at work: the first initialization adds to the empty registry. *)
Lemma registry_only_grows_witness :
  dom (sessions (boot (Engine := Engine) None)) ⊆ dom (sessions opened).
Proof.
  apply (registry_only_grows stringify uuid Engine create onmessage 1 (boot None)
           (POST_ None initialize) opened).
  vm_compute. reflexivity.
Defined.

(** X10 at work. *)
Lemma registered_sessions_stream_live_witness :
  _sessionId (transport session0) = "uuid-0" /\
  _onmessage (transport session0) = true /\
  _messageQueue (transport session0) = [] /\
  exists r, _currentResponse (transport session0) = Some r /\ r < next_req opened /\
    writableEnded (get_response r (heap opened)) = false.
Proof.
  apply (registered_sessions_stream_live stringify uuid Engine create onmessage opened
           "uuid-0" session0).
  - exists None, 1, [POST_ None initialize]. vm_compute. reflexivity.
  - vm_compute. reflexivity.
Defined.

(** X11 at work: a GET on the open session, with no fuel at all. *)
Lemma serve_always_returns_witness :
  exists w', serve 0 (mkRequest GET None (Some "uuid-0") JUndefined) opened = Ok w'.
Proof.
  apply (serve_always_returns stringify uuid Engine create onmessage 0
           (mkRequest GET None (Some "uuid-0") JUndefined) opened).
  exists None, 1, [POST_ None initialize]. vm_compute. reflexivity.
Defined.

(** X12 at work: a GET on the open session. *)
Lemma get_attaches_new_sink_witness :
  exists w1,
    serve 1 (mkRequest GET None (Some "uuid-0") JUndefined) opened = Ok w1 /\
    get_response 1 (heap w1) =
      mkResponse 200 sse_headers true [sse_event (uuid 2) EmptyString] false /\
    get_response 0 (heap w1) = get_response 0 (heap opened).
Proof.
  destruct (get_attaches_new_sink stringify uuid Engine create onmessage 1
              (mkRequest GET None (Some "uuid-0") JUndefined) "uuid-0" session0 opened)
    as (w1 & Hserve & _ & Hresp & Hother & _).
  - exists None, 1, [POST_ None initialize]. vm_compute. reflexivity.
  - reflexivity.
  - reflexivity.
  - reflexivity.
  - done.
  - vm_compute. reflexivity.
  - exists w1. split; [exact Hserve |]. split; [exact Hresp |].
    apply Hother. vm_compute. discriminate.
Defined.



(** X15 at work: response 1 of [busy] was ended with a 404; two more
    events leave it as it is. *)
Lemma ended_response_is_final_witness :
  exists w',
    run 1 busy [GET_ (Some "uuid-0"); EngineSend "uuid-0" (result 3)] = Ok w' /\
    get_response 1 (heap w') = get_response 1 (heap busy).
Proof.
  assert (exists w',
            run 1 busy [GET_ (Some "uuid-0"); EngineSend "uuid-0" (result 3)] = Ok w')
    as [w' Hrun] by (eexists; vm_compute; reflexivity).
  exists w'. split; [exact Hrun |].
  apply (ended_response_is_final stringify uuid Engine create onmessage 1
           [GET_ (Some "uuid-0"); EngineSend "uuid-0" (result 3)] busy w' 1).
  - exists None, 1,
      [POST_ None initialize; GET_ (Some "nobody");
       POST_ (Some "uuid-0") (request 2 "tools/list");
       POST_ (Some "uuid-0") (request 3 "tools/call")].
    vm_compute. reflexivity.
  - exact Hrun.
  - vm_compute. lia.
  - vm_compute. reflexivity.
Defined.

(** X16 at work: in [busy] the handler of request 2 has been displaced
    by that of request 3; the result the engine sends next and the
    attempts to resume leave request 2 unanswered. *)
Lemma displaced_request_is_never_answered_witness :
  exists w',
    run 1 busy [EngineSend "uuid-0" (result 2); Resume 2; Resume 3] = Ok w' /\
    orphaned 2 w' /\
    get_response 2 (heap w') = get_response 2 (heap busy).
Proof.
  assert (exists w',
            run 1 busy [EngineSend "uuid-0" (result 2); Resume 2; Resume 3] = Ok w')
    as [w' Hrun] by (eexists; vm_compute; reflexivity).
  exists w'. split; [exact Hrun |].
  apply (displaced_request_is_never_answered stringify uuid Engine create onmessage 1
           [EngineSend "uuid-0" (result 2); Resume 2; Resume 3] busy w' 2).
  - exists None, 1,
      [POST_ None initialize; GET_ (Some "nobody");
       POST_ (Some "uuid-0") (request 2 "tools/list");
       POST_ (Some "uuid-0") (request 3 "tools/call")].
    vm_compute. reflexivity.
  - split; [vm_compute; reflexivity |].
    intros sid s.
    assert (sessions busy =
              {[ "uuid-0" :=
                   mkSession [initialize; request 2 "tools/list"; request 3 "tools/call"]
                     (mkTransport true true (Some 0) [] "uuid-0" (Some 3)) ]}) as ->
      by (vm_compute; reflexivity).
    intros [_ <-]%lookup_singleton_Some. discriminate.
  - exact Hrun.
Defined.

(** X17 at work: the one-tool table of [Demo]; [echo] called without
    arguments returns a result. *)
Lemma listed_tools_are_callable_witness :
  exists context' result,
    Tools.call_tool unit unit tools (fun _ => false) (fun _ _ => Tools.Foreign JNull)
      accepts_objects (fun _ => "failed") (fun v => JStr (stringify v))
      "echo" JUndefined tt = (context', inl result).
Proof.
  destruct (listed_tools_are_callable unit unit unit tools (fun _ => false)
              (fun _ _ => Tools.Foreign JNull) accepts_objects (fun _ => tt)
              (fun _ => "failed") (fun v => JStr (stringify v)))
    as (_ & Hcall & _).
  apply Hcall. cbn. apply elem_of_cons. by left.
Defined.

(** X18 at work: the version flag wins over the help flag; [--http] is
    refused; a plain start serves. *)
Lemma main_decision_witness :
  Cli.main "notifly-mcp-server" "1.2.3" ["node"; "index.js"; "--help"; "-v"] None =
    Cli.mkRun ["1.2.3"] (Cli.Exit 0) /\
  Cli.main "notifly-mcp-server" "1.2.3" ["node"; "index.js"; "--http"] None =
    Cli.mkRun
      ["[Error] HTTP transport has been archived and is not available in this build.";
       "Please use stdio transport (default) or check docs/archive/ for HTTP implementation."]
      (Cli.Exit 1) /\
  Cli.main "notifly-mcp-server" "1.2.3" ["node"; "index.js"] (Some "false") =
    Cli.mkRun ["notifly-mcp-server v1.2.3 connected (stdio)"] Cli.Serving.
Proof.
  split; [| split].
  - destruct (main_decision "notifly-mcp-server" "1.2.3"
                ["node"; "index.js"; "--help"; "-v"] None) as (Hversion & _).
    apply Hversion. exists "-v". split; [| by right].
    cbn. apply elem_of_cons. right. apply elem_of_cons. by left.
  - destruct (main_decision "notifly-mcp-server" "1.2.3"
                ["node"; "index.js"; "--http"] None) as (_ & _ & Hhttp & _).
    apply Hhttp.
    + intros (arg & Hin & Harg). cbn in Hin. apply list_elem_of_singleton in Hin.
      subst arg. by destruct Harg.
    + intros (arg & Hin & Harg). cbn in Hin. apply list_elem_of_singleton in Hin.
      subst arg. by destruct Harg.
    + left. apply elem_of_cons. right. apply elem_of_cons. right.
      apply elem_of_cons. by left.
  - destruct (main_decision "notifly-mcp-server" "1.2.3" ["node"; "index.js"]
                (Some "false")) as (_ & _ & _ & Hserve).
    apply Hserve.
    + intros (arg & Hin & _). cbn in Hin. by apply elem_of_nil in Hin.
    + intros (arg & Hin & _). cbn in Hin. by apply elem_of_nil in Hin.
    + intros [Hin|Henv]; [| discriminate Henv].
      apply elem_of_cons in Hin as [Hin|Hin]; [discriminate Hin |].
      apply list_elem_of_singleton in Hin. discriminate Hin.
Defined.

End Run.
